(** * MicronForce GPT proxy: a shallow embedding of the two servers

    The repository ships two Express servers.

    - The SQLite-backed server (rate limiter, cookie/JWT role resolver,
      [chat_settings] and [chat_logs] tables, chat / TTS / logs routes for
      the superadmin and the user tier).  It is embedded in [Module Sqlite].
    - The in-house server [micronforce_inhouse/server/index.js] (settings
      object and log array kept in memory, OpenAI SDK client).  It is
      embedded in [Module InHouse].

    JavaScript values, strings and the few built-ins both servers use live in
    [Module Js].  Effects are explicit: a handler takes the current state, the
    request and the clock reading, consults the upstream provider through an
    oracle, and returns the response, the new state and the list of upstream
    requests it issued.  Of the speech-to-text routes the handler is
    embedded; the upload middleware in front of it is a library's and is
    represented by what it leaves in [req.file]. *)

From Stdlib Require Import ZArith Ascii String DecimalString.
From stdpp Require Import gmap strings list.

Set Warnings "-register-all".

Local Open Scope Z_scope.

(* ===================================================================== *)
(** * JavaScript values and built-ins *)
(* ===================================================================== *)

Module Js.

(** ** Strings

    A JavaScript string is embedded as a [string]; each character stands for
    one code unit, so the embedding covers strings whose code units are below
    256 (Latin-1). *)

Definition code (c : ascii) : nat := nat_of_ascii c.

Definition between (lo hi n : nat) : bool := (lo <=? n)%nat && (n <=? hi)%nat.

(** [String.prototype.toLowerCase], restricted to code units below 256. *)
Definition lower_char (c : ascii) : ascii :=
  let n := code c in
  if between 65 90 n
     || (between 192 222 n && negb (n =? 215)%nat)
  then ascii_of_nat (n + 32) else c.

Fixpoint toLowerCase (s : string) : string :=
  match s with
  | EmptyString => EmptyString
  | String c s' => String (lower_char c) (toLowerCase s')
  end.

(** White space and line terminators stripped by [trim], below 256:
    TAB, LF, VT, FF, CR, SPACE and NBSP. *)
Definition is_space (c : ascii) : bool :=
  let n := code c in
  between 9 13 n || (n =? 32)%nat || (n =? 160)%nat.

Fixpoint trimStart (s : string) : string :=
  match s with
  | EmptyString => EmptyString
  | String c s' => if is_space c then trimStart s' else s
  end.

Fixpoint trimEnd (s : string) : string :=
  match s with
  | EmptyString => EmptyString
  | String c s' =>
      match trimEnd s' with
      | EmptyString => if is_space c then EmptyString else String c EmptyString
      | t => String c t
      end
  end.

Definition trim (s : string) : string := trimEnd (trimStart s).

(** The string holds white space only (or nothing). *)
Fixpoint all_space (s : string) : bool :=
  match s with
  | EmptyString => true
  | String c s' => is_space c && all_space s'
  end.

(** [s.includes(q)] *)
Fixpoint includes (s q : string) : bool :=
  String.prefix q s
  || match s with
     | EmptyString => false
     | String _ s' => includes s' q
     end.

(** [s.split(',')[0]]: the text before the first comma. *)
Fixpoint first_segment (s : string) : string :=
  match s with
  | EmptyString => EmptyString
  | String c s' => if Ascii.eqb c "," then EmptyString else String c (first_segment s')
  end.

(** [s.slice(0, n)] for a non-negative [n]. *)
Fixpoint slice0 (n : nat) (s : string) : string :=
  match n, s with
  | S n', String c s' => String c (slice0 n' s')
  | _, _ => EmptyString
  end.

(** [s.replace(a, b)] for single characters: the first occurrence only. *)
Fixpoint replace_first (a b : ascii) (s : string) : string :=
  match s with
  | EmptyString => EmptyString
  | String c s' => if Ascii.eqb c a then String b s' else String c (replace_first a b s')
  end.

(** Decimal rendering of an integer, as [String(n)] gives it. *)
Definition string_of_Z (n : Z) : string := NilZero.string_of_int (Z.to_int n).

(** ** Values

    Numbers are the integers (token counters, HTTP statuses, limits and
    clock readings are all integral in this program), of fewer than sixteen
    digits, so that JavaScript and SQLite print each of them digit for
    digit. *)

Inductive jsval : Type :=
| JUndef
| JNull
| JBool (b : bool)
| JNum (n : Z)
| JStr (s : string)
| JArr (l : list jsval)
| JObj (fields : list (string * jsval)).

(** Truthiness, as [if (v)], [v || w] and [v ? a : b] use it. *)
Definition truthy (v : jsval) : bool :=
  match v with
  | JUndef | JNull => false
  | JBool b => b
  | JNum n => negb (n =? 0)
  | JStr s => negb (String.eqb s "")
  | JArr _ | JObj _ => true
  end.

(** [v || w] *)
Definition js_or (v w : jsval) : jsval := if truthy v then v else w.

Definition nullish (v : jsval) : bool :=
  match v with
  | JUndef | JNull => true
  | _ => false
  end.

(** [v ?? w] *)
Definition js_nc (v w : jsval) : jsval := if nullish v then w else v.

(** A destructuring default [{ x = d }]: only [undefined] takes the default. *)
Definition js_default (v d : jsval) : jsval :=
  match v with
  | JUndef => d
  | _ => v
  end.

(** Own-property lookup in an object, given as its list of distinct keys
    with their values. *)
Fixpoint field (k : string) (fs : list (string * jsval)) : jsval :=
  match fs with
  | [] => JUndef
  | (k', v) :: fs' => if String.eqb k k' then v else field k fs'
  end.

(** [v?.k] for a property name [k] that is not an index and not [length]:
    only objects carry such a property. *)
Definition opt_get (v : jsval) (k : string) : jsval :=
  match v with
  | JObj fs => field k fs
  | _ => JUndef
  end.

(** [v?.[0]] *)
Definition opt_first (v : jsval) : jsval :=
  match v with
  | JArr (x :: _) => x
  | JStr (String c _) => JStr (String c EmptyString)
  | JObj fs => field "0" fs
  | _ => JUndef
  end.

(** [v === JStr s] *)
Definition is_string (v : jsval) (s : string) : bool :=
  match v with
  | JStr t => String.eqb t s
  | _ => false
  end.

Fixpoint chars (s : string) : list jsval :=
  match s with
  | EmptyString => []
  | String c s' => JStr (String c EmptyString) :: chars s'
  end.

(** The values a [for (const m of v)] loop visits; [None] when [v] is not
    iterable and the loop throws a [TypeError]. *)
Definition iterate (v : jsval) : option (list jsval) :=
  match v with
  | JArr l => Some l
  | JStr s => Some (chars s)
  | _ => None
  end.

Definition join (sep : string) (l : list string) : string :=
  match l with
  | [] => ""
  | x :: l' => fold_left (fun acc y => acc +:+ sep +:+ y) l' x
  end.

(** [String(v)], also what a template literal [`${v}`] inserts, for a value
    the conversion accepts ([converts] below): an object is rendered by
    [Object.prototype.toString], which an own [toString] key would hide. *)
Fixpoint to_string (v : jsval) : string :=
  match v with
  | JUndef => "undefined"
  | JNull => "null"
  | JBool true => "true"
  | JBool false => "false"
  | JNum n => string_of_Z n
  | JStr s => s
  | JArr l =>
      join "," (map (fun x => if nullish x then "" else to_string x) l)
  | JObj _ => "[object Object]"
  end.

(** The object has an own property [k]. *)
Definition has_key (k : string) (fs : list (string * jsval)) : bool :=
  existsb (fun kv => String.eqb k (fst kv)) fs.

(** [String(v)] returns for [v]; it throws a [TypeError] for an object with
    an own [toString] key (a parsed JSON value is never callable), and for an
    array that holds such an object. *)
Fixpoint converts (v : jsval) : bool :=
  match v with
  | JObj fs => negb (has_key "toString" fs)
  | JArr l => forallb (fun x => nullish x || converts x) l
  | _ => true
  end.

(** A completion body without a first choice that carries message content:
    the body is no object, or has no [choices], or an empty list of them, or
    a first choice that is no object or has no [message] object, or a
    message whose [content] is missing or [null]. *)
Definition lacks_message_content (data : jsval) : bool :=
  match data with
  | JObj fs =>
      match field "choices" fs with
      | JUndef | JNull | JArr [] => true
      | JArr (JObj choice :: _) =>
          match field "message" choice with
          | JObj message => nullish (field "content" message)
          | _ => true
          end
      | JArr (_ :: _) => true
      | _ => false
      end
  | _ => true
  end.

(** ** [JSON.stringify] *)

Definition hex_digit (n : nat) : ascii :=
  if (n <? 10)%nat then ascii_of_nat (48 + n) else ascii_of_nat (87 + n).

Definition escape_char (c : ascii) : string :=
  let n := code c in
  if (n =? 34)%nat then "\" +:+ String c ""
  else if (n =? 92)%nat then "\\"
  else if (n =? 8)%nat then "\b"
  else if (n =? 9)%nat then "\t"
  else if (n =? 10)%nat then "\n"
  else if (n =? 12)%nat then "\f"
  else if (n =? 13)%nat then "\r"
  else if (n <? 32)%nat then
    "\u00" +:+ String (hex_digit (n / 16)) (String (hex_digit (n mod 16)) "")
  else String c "".

Fixpoint escape (s : string) : string :=
  match s with
  | EmptyString => EmptyString
  | String c s' => escape_char c +:+ escape s'
  end.

Definition dquote : ascii := ascii_of_nat 34.

Definition quote (s : string) : string :=
  String dquote (escape s) +:+ String dquote "".

(** [stringify_opt v] is [None] where [JSON.stringify] yields [undefined]. *)
Fixpoint stringify_opt (v : jsval) : option string :=
  match v with
  | JUndef => None
  | JNull => Some "null"
  | JBool true => Some "true"
  | JBool false => Some "false"
  | JNum n => Some (string_of_Z n)
  | JStr s => Some (quote s)
  | JArr l =>
      Some ("[" +:+ join "," (map (fun x => default "null" (stringify_opt x)) l) +:+ "]")
  | JObj fs =>
      Some ("{" +:+
            join ","
              (omap (fun kv =>
                       match stringify_opt (snd kv) with
                       | Some t => Some (quote (fst kv) +:+ ":" +:+ t)
                       | None => None
                       end) fs) +:+ "}")
  end.

(** [JSON.stringify(l)] of an array is always a string. *)
Definition stringify_array (l : list jsval) : string :=
  default "null" (stringify_opt (JArr l)).

End Js.

(* ===================================================================== *)
(** * What [node-fetch] hands back *)
(* ===================================================================== *)

Module Http.
Import Js.

(** What [r.json()] gives: the parsed body, or a rejection. *)
Inductive json_result :=
| JsonOk (data : jsval)
| JsonError (detail : string).

Record upstream_response := {
  up_status : Z;
  up_text : string;        (* r.text() and the bytes of r.body *)
  up_json : json_result    (* r.json() *)
}.

(** [r.ok]: the status is in the range 200-299. *)
Definition ok (r : upstream_response) : bool :=
  (200 <=? up_status r) && (up_status r <=? 299).

Inductive fetch_result :=
| Rejected (detail : string)          (* the promise rejects; String(e) *)
| Resolved (r : upstream_response).

(** Truthiness of a string that may be [undefined]. *)
Definition present (o : option string) : bool :=
  match o with
  | Some s => negb (String.eqb s "")
  | None => false
  end.

(** [a || b] on strings that may be [undefined], with a string fallback. *)
Definition or_else (o : option string) (d : string) : string :=
  match o with
  | Some s => if String.eqb s "" then d else s
  | None => d
  end.

End Http.

(* ===================================================================== *)
(** * The SQLite-backed server *)
(* ===================================================================== *)

Module Sqlite.
Import Js Http.

(** ** Rate limiter: [const bucket = new Map()] and [allow] *)

Record RateBucket := { count : Z; reset : Z }.

(** [allow(ip, limit, windowMs)] at clock reading [now] ([Date.now()]).
    Returns the verdict and the map after [bucket.set(ip, b)]. *)
Definition allow (bucket : gmap string RateBucket) (now : Z)
    (ip : string) (limit windowMs : Z) : bool * gmap string RateBucket :=
  let b := default {| count := 0; reset := now + windowMs |} (bucket !! ip) in
  let b := if reset b <? now
           then {| count := 0; reset := now + windowMs |}
           else b in
  let b := {| count := count b + 1; reset := reset b |} in
  (count b <=? limit, <[ip := b]> bucket).


(** The bucket [allow] works on before it counts the call. *)
Definition current (m : gmap string RateBucket) (now : Z) (ip : string)
    (windowMs : Z) : RateBucket :=
  match m !! ip with
  | Some b => if reset b <? now then {| count := 0; reset := now + windowMs |} else b
  | None => {| count := 0; reset := now + windowMs |}
  end.

(** Successive [allow] calls for one key with one limit and window, at the
    given clock readings: the verdicts in order and the map left behind. *)
Fixpoint allow_all (bucket : gmap string RateBucket) (ip : string)
    (limit windowMs : Z) (times : list Z) : list bool * gmap string RateBucket :=
  match times with
  | [] => ([], bucket)
  | now :: later =>
      let first := allow bucket now ip limit windowMs in
      let rest := allow_all (snd first) ip limit windowMs later in
      (fst first :: fst rest, snd rest)
  end.

(** Any interleaving of gated requests: each call has its own key, clock
    reading, limit and window (the routes share one map and use different
    limits). *)
Record call := {
  at_time : Z;
  key : string;
  with_limit : Z;
  with_window : Z
}.

Definition after_call (bucket : gmap string RateBucket) (c : call)
  : gmap string RateBucket :=
  snd (allow bucket (at_time c) (key c) (with_limit c) (with_window c)).

(** The maps observed after each call of a sequence. *)
Fixpoint history (bucket : gmap string RateBucket) (cs : list call)
  : list (gmap string RateBucket) :=
  match cs with
  | [] => []
  | c :: cs' => after_call bucket c :: history (after_call bucket c) cs'
  end.

(** The count stored for a key; a key without a bucket has made no call. *)
Definition count_of (bucket : gmap string RateBucket) (k : string) : Z :=
  match bucket !! k with
  | Some b => count b
  | None => 0
  end.

(** The call finds the key's window expired. *)
Definition expired (bucket : gmap string RateBucket) (c : call) (k : string) : Prop :=
  key c = k /\ exists b, bucket !! k = Some b /\ reset b < at_time c.

(** ** Configuration: the destructured [process.env]

    A variable that is not set is [None].  The server exits at start-up when
    [OPENAI_API_KEY] is missing, so a running server has one. *)

Record process_env := {
  OPENAI_API_KEY : string;
  ADMIN_BYPASS_TOKEN : option string;
  env_CHAT_MODEL : option string;
  env_TTS_ENGINE : option string;
  env_TTS_VOICE : option string;
  AUTH_JWT_SECRET : option string;
  AUTH_JWT_ISSUER : option string
}.

(** The destructuring defaults apply to an unset variable only. *)
Definition CHAT_MODEL (e : process_env) : string := default "gpt-4o-mini" (env_CHAT_MODEL e).
Definition TTS_ENGINE (e : process_env) : string := default "openai" (env_TTS_ENGINE e).
Definition TTS_VOICE (e : process_env) : string := default "alloy" (env_TTS_VOICE e).

(** ** The database: [chat_settings] (one row, [id = 1]) and [chat_logs] *)

Record settings_row := {
  model : string;
  tts_engine : string;
  tts_voice : string;
  system_prompt : string
}.

(** The row [insert into chat_settings (id) values (1)] creates from the
    column defaults. *)
Definition default_settings : settings_row :=
  {| model := "gpt-4o-mini"; tts_engine := "openai"; tts_voice := "alloy";
     system_prompt := "" |}.

(** A [chat_logs] row.  [actor], [reply] and the token counters hold the
    JavaScript values bound to the statement: strings, numbers and [null],
    the values the driver binds ([bindable] below).  [created_at] is the
    clock reading at insertion. *)
Record log_row := {
  log_id : Z;
  actor : jsval;
  scope : string;
  messages : string;
  reply : jsval;
  tokens_prompt : jsval;
  tokens_completion : jsval;
  created_at : Z
}.

Record state := {
  bucket : gmap string RateBucket;
  chat_settings : settings_row;
  chat_logs : list log_row
}.

Definition with_bucket (st : state) (b : gmap string RateBucket) : state :=
  {| bucket := b; chat_settings := chat_settings st; chat_logs := chat_logs st |}.
Definition with_settings (st : state) (r : settings_row) : state :=
  {| bucket := bucket st; chat_settings := r; chat_logs := chat_logs st |}.
Definition with_logs (st : state) (l : list log_row) : state :=
  {| bucket := bucket st; chat_settings := chat_settings st; chat_logs := l |}.

(** [integer primary key autoincrement]: one more than the largest id. *)
Definition next_id (t : list log_row) : Z :=
  1 + fold_right Z.max 0 (map log_id t).

(** [insert into chat_logs (actor, scope, messages, reply, tokens_prompt,
    tokens_completion) values (...)] *)
Definition insert_log (t : list log_row) (now : Z) (a : jsval) (sc : string)
    (ms : string) (r tp tc : jsval) : list log_row :=
  t ++ [ {| log_id := next_id t; actor := a; scope := sc; messages := ms;
            reply := r; tokens_prompt := tp; tokens_completion := tc;
            created_at := now |} ].


(** [order by id desc] *)
Fixpoint insert_desc (r : log_row) (l : list log_row) : list log_row :=
  match l with
  | [] => [r]
  | x :: l' => if log_id x <=? log_id r then r :: l else x :: insert_desc r l'
  end.

Definition order_by_id_desc (t : list log_row) : list log_row :=
  fold_right insert_desc [] t.

(** [limit n]: a negative bound means no bound. *)
Definition sql_limit (n : Z) (l : list log_row) : list log_row :=
  if n <? 0 then l else take (Z.to_nat n) l.

(** SQLite folds the 26 ASCII letters only when [LIKE] compares. *)
Definition like_fold (c : ascii) : ascii :=
  if between 65 90 (code c) then ascii_of_nat (code c + 32) else c.

(** [text like pat], no escape character: [%] matches any run of
    characters, [_] matches one character, any other character matches
    itself up to ASCII case. *)
Fixpoint like (pat text : string) : bool :=
  match pat with
  | EmptyString =>
      match text with
      | EmptyString => true
      | String _ _ => false
      end
  | String p pat' =>
      if Ascii.eqb p "%" then
        (fix skip (t : string) : bool :=
           like pat' t
           || match t with
              | EmptyString => false
              | String _ t' => skip t'
              end) text
      else
        match text with
        | EmptyString => false
        | String c text' =>
            (Ascii.eqb p "_" || Ascii.eqb (like_fold p) (like_fold c))
            && like pat' text'
        end
  end.



(** The driver binds strings, numbers, [null] and [undefined] (as NULL); it
    refuses any other value with a [TypeError]. *)
Definition bindable (v : jsval) : bool :=
  match v with
  | JBool _ | JArr _ | JObj _ => false
  | _ => true
  end.

Definition bind_error : string :=
  "TypeError: SQLite3 can only bind numbers, strings, bigints, buffers, and null".

(** A number is bound as a REAL; this is the text a [text] column stores for
    it. *)
Definition real_text (n : Z) : string := string_of_Z n +:+ ".0".

(** The text a [text] column shows for a bound value. *)
Definition sql_text (v : jsval) : string :=
  match v with
  | JNum n => real_text n
  | _ => to_string v
  end.

(** [where reply like ? or messages like ?] *)
Definition row_like (pat : string) (r : log_row) : bool :=
  like pat (sql_text (reply r)) || like pat (messages r).

(** ** Requests and responses *)

Record request := {
  x_forwarded_for : option string;   (* req.headers['x-forwarded-for'] *)
  remoteAddress : option string;     (* req.socket.remoteAddress *)
  x_admin : option string;           (* req.header('x-admin') *)
  cookie_access : option string;     (* req.cookies?.access *)
  body : jsval;                      (* req.body *)
  query_text : option string;        (* req.query.text *)
  query_voice : option string;       (* req.query.voice *)
  query_q : option string;           (* req.query.q *)
  query_limit : option Z             (* Number(req.query.limit), an integer literal *)
}.

Inductive payload :=
| Json (v : jsval)           (* res.json(v) *)
| Rows (rows : list log_row) (* res.json(rows) *)
| Text (s : string)          (* res.send(s) *)
| Audio (bytes : string)     (* Content-Type: audio/mpeg, body piped *)
| ErrorPage (e : string).    (* the page Express renders for the uncaught
                                error [e]; its text is not modelled *)

Record response := { status : Z; sent : payload }.

Definition error_json (code : string) : payload :=
  Json (JObj [("error", JStr code)]).

Definition error_detail (code detail : string) : payload :=
  Json (JObj [("error", JStr code); ("detail", JStr detail)]).

(** ** The upstream provider *)

Inductive fetch_request :=
| ChatCompletions (authorization : string) (chat_model : string)
    (chat_messages : list jsval)       (* temperature: 0.7 *)
| AudioSpeech (authorization : string) (voice : string) (input : string).
                                       (* model: 'gpt-4o-mini-tts' *)

(** What a route does: the response, the state it leaves, and the upstream
    requests it issued, in order. *)
Record outcome := {
  resp : response;
  final : state;
  calls : list fetch_request
}.

Definition respond (st : state) (s : Z) (p : payload) : outcome :=
  {| resp := {| status := s; sent := p |}; final := st; calls := [] |}.


Section Server.

(** The process environment, the provider reached through [fetch], the
    [jsonwebtoken] library and [Date.prototype.toISOString]. *)
Variable env : process_env.
Variable fetch : fetch_request -> fetch_result.
(** [jwt.verify(token, secret, { issuer })]: the payload, or [None] when it
    throws. *)
Variable jwt_verify : string -> option string -> string -> option jsval.
(** [jwt.decode(token)]: the payload, or [null]. *)
Variable jwt_decode : string -> jsval.
Variable toISOString : Z -> string.

(** [req.headers['x-forwarded-for']?.split(',')[0]?.trim()
     || req.socket.remoteAddress || 'unknown'] *)
Definition client_ip (req : request) : string :=
  or_else (option_map (fun h => trim (first_segment h)) (x_forwarded_for req))
    (or_else (remoteAddress req) "unknown").

(** [rateLimit(limit, windowMs)], followed by the rest of the chain. *)
Definition rateLimit (limit windowMs : Z) (now : Z) (req : request)
    (st : state) (next : state -> outcome) : outcome :=
  let ip := client_ip req in
  let verdict := allow (bucket st) now ip limit windowMs in
  let st1 := with_bucket st (snd verdict) in
  if fst verdict then next st1
  else respond st1 429 (error_json "rate_limited").

(** ** Auth middlewares *)

Definition getRoleFromCookie (req : request) : jsval :=
  match cookie_access req with
  | None => JNull
  | Some token =>
      if String.eqb token "" then JNull
      else
        let decoded :=
          match AUTH_JWT_SECRET env with
          | Some secret =>
              if String.eqb secret "" then Some (jwt_decode token)
              else jwt_verify secret
                     (if present (AUTH_JWT_ISSUER env) then AUTH_JWT_ISSUER env else None)
                     token
          | None => Some (jwt_decode token)
          end in
        match decoded with
        | Some d => js_or (opt_get d "role") JNull
        | None => JNull
        end
  end.

(** [ADMIN_BYPASS_TOKEN && req.header('x-admin') === ADMIN_BYPASS_TOKEN] *)
Definition bypass (req : request) : bool :=
  match ADMIN_BYPASS_TOKEN env with
  | Some t =>
      negb (String.eqb t "")
      && match x_admin req with
         | Some h => String.eqb h t
         | None => false
         end
  | None => false
  end.

(** The requests [requireSuperadmin] lets through. *)
Definition admits (req : request) : bool :=
  is_string (getRoleFromCookie req) "superadmin" || bypass req.

Definition requireSuperadmin (req : request) (st : state)
    (next : state -> outcome) : outcome :=
  let role := getRoleFromCookie req in
  if is_string role "superadmin" then next st
  else if bypass req then next st
  else respond st 401 (error_json "Superadmin required").

Definition requireUser (req : request) (st : state)
    (next : state -> outcome) : outcome :=
  let role := getRoleFromCookie req in
  if truthy role then next st
  else next st.

(** ** Settings (superadmin) *)

Definition settings_json (r : settings_row) : payload :=
  Json (JObj [("model", JStr (model r)); ("tts_engine", JStr (tts_engine r));
              ("tts_voice", JStr (tts_voice r));
              ("system_prompt", JStr (system_prompt r))]).

Definition get_settings_handler (st : state) : outcome :=
  respond st 200 (settings_json (chat_settings st)).

(** [coalesce(@p, col)] for a [text] column and a parameter the driver has
    bound: [undefined] and [null] are bound as NULL and keep the column; a
    string is stored as it is, a number as the text of a REAL. *)
Definition coalesce (p : jsval) (col : string) : string :=
  match p with
  | JStr s => s
  | JNum n => real_text n
  | _ => col
  end.

(** The four values [run({ model, tts_engine, tts_voice, system_prompt })]
    binds. *)
Definition update_params (b : jsval) : list jsval :=
  [opt_get b "model"; opt_get b "tts_engine"; opt_get b "tts_voice";
   opt_get b "system_prompt"].

Definition update_settings (b : jsval) (r : settings_row) : settings_row :=
  {| model := coalesce (opt_get b "model") (model r);
     tts_engine := coalesce (opt_get b "tts_engine") (tts_engine r);
     tts_voice := coalesce (opt_get b "tts_voice") (tts_voice r);
     system_prompt := coalesce (opt_get b "system_prompt") (system_prompt r) |}.

(** The handler has no [try]: when the driver refuses a parameter the
    statement is not run and Express answers 500. *)
Definition put_settings_handler (req : request) (st : state) : outcome :=
  let b := js_or (body req) (JObj []) in
  if forallb bindable (update_params b) then
    let st1 := with_settings st (update_settings b (chat_settings st)) in
    respond st1 200 (settings_json (chat_settings st1))
  else respond st 500 (ErrorPage bind_error).

(** The settings row after a sequence of update requests. *)
Definition after_updates (reqs : list request) (st : state) : state :=
  fold_left (fun s req => final (put_settings_handler req s)) reqs st.

(** ** Chat

    The superadmin and the user handler share their text from the settings
    read to the response; they differ in the actor and in the scope written
    to the log. *)

Definition bearer : string := "Bearer " +:+ OPENAI_API_KEY env.

Definition system_message (prompt : string) : jsval :=
  JObj [("role", JStr "system"); ("content", JStr prompt)].

(** [finalMessages] before the request's messages are pushed. *)
Definition prefix_messages (settings : settings_row) : list jsval :=
  if String.eqb (trim (system_prompt settings)) "" then []
  else [system_message (system_prompt settings)].

(** [data?.choices?.[0]?.message?.content] *)
Definition first_choice_content (data : jsval) : jsval :=
  opt_get (opt_get (opt_first (opt_get data "choices")) "message") "content".

Definition chat_failed (st : state) (detail : string)
    (issued : list fetch_request) : outcome :=
  {| resp := {| status := 500; sent := error_detail "chat_failed" detail |};
     final := st; calls := issued |}.

(** The request posted to [/v1/chat/completions]. *)
Definition chat_request (settings : settings_row) (finalMessages : list jsval)
  : fetch_request :=
  ChatCompletions bearer (or_else (Some (model settings)) (CHAT_MODEL env))
    finalMessages.

(** [const { messages = [] } = req.body || {}] *)
Definition request_messages (req : request) : jsval :=
  js_default (opt_get (js_or (body req) (JObj [])) "messages") (JArr []).

(** The request a chat handler posts when the loop over the request's
    messages visits [ms]. *)
Definition posted (st : state) (ms : list jsval) : fetch_request :=
  chat_request (chat_settings st) (prefix_messages (chat_settings st) ++ ms).

(** [data?.choices?.[0]?.message?.content ?? ''] *)
Definition reply_of (data : jsval) : jsval :=
  js_nc (first_choice_content data) (JStr "").

(** [data?.usage || {}] *)
Definition usage_of (data : jsval) : jsval :=
  js_or (opt_get data "usage") (JObj []).

(** [usage.prompt_tokens || null] and [usage.completion_tokens || null] *)
Definition token_counters (data : jsval) : list jsval :=
  [js_or (opt_get (usage_of data) "prompt_tokens") JNull;
   js_or (opt_get (usage_of data) "completion_tokens") JNull].

(** The values the insert binds besides the serialized messages: the
    actor, the reply and the two token counters. *)
Definition insert_params (who : jsval) (data : jsval) : list jsval :=
  who :: reply_of data :: token_counters data.

Definition complete_chat (sc : string) (who : jsval) (msgs : jsval)
    (now : Z) (st : state) : outcome :=
  let settings := chat_settings st in
  match iterate msgs with
  | None => chat_failed st "TypeError: messages is not iterable" []
  | Some ms =>
      let finalMessages := prefix_messages settings ++ ms in
      let rq := chat_request settings finalMessages in
      match fetch rq with
      | Rejected e => chat_failed st e [rq]
      | Resolved r =>
          match up_json r with
          | JsonError e => chat_failed st e [rq]
          | JsonOk data =>
              if negb (ok r) then
                {| resp := {| status := up_status r; sent := Json data |};
                   final := st; calls := [rq] |}
              else if negb (forallb bindable (insert_params who data)) then
                chat_failed st bind_error [rq]
              else
                let reply := js_nc (first_choice_content data) (JStr "") in
                let usage := js_or (opt_get data "usage") (JObj []) in
                let logs :=
                  insert_log (chat_logs st) now who sc
                    (stringify_array finalMessages) reply
                    (js_or (opt_get usage "prompt_tokens") JNull)
                    (js_or (opt_get usage "completion_tokens") JNull) in
                {| resp := {| status := 200;
                              sent := Json (JObj [("reply", reply);
                                                  ("usage", usage);
                                                  ("created_at", JStr (toISOString now))]) |};
                   final := with_logs st logs; calls := [rq] |}
          end
      end
  end.

(** [const { admin_user = 'superadmin' } = req.body || {}] *)
Definition admin_user_of (req : request) : jsval :=
  js_default (opt_get (js_or (body req) (JObj [])) "admin_user") (JStr "superadmin").

Definition super_chat_handler (now : Z) (req : request) (st : state) : outcome :=
  let b := js_or (body req) (JObj []) in
  let msgs := request_messages req in
  let admin_user := js_default (opt_get b "admin_user") (JStr "superadmin") in
  complete_chat "super" admin_user msgs now st.

(** The template literal [`user:${user_id}`] is not evaluated, or is
    evaluated and returns. *)
Definition user_id_converts (req : request) : bool :=
  let user_id := opt_get (js_or (body req) (JObj [])) "user_id" in
  negb (truthy user_id) || converts user_id.

Definition conversion_error : string :=
  "TypeError: Cannot convert object to primitive value".

(** The actor is computed inside the [try], before the settings are read:
    a [user_id] the template literal cannot convert ends the handler in the
    [catch]. *)
Definition user_send_handler (now : Z) (req : request) (st : state) : outcome :=
  let b := js_or (body req) (JObj []) in
  let msgs := request_messages req in
  let user_id := opt_get b "user_id" in
  let ip := client_ip req in
  if truthy user_id && negb (converts user_id) then
    chat_failed st conversion_error []
  else
    let who := if truthy user_id then "user:" +:+ to_string user_id
               else "ip:" +:+ ip in
    complete_chat "user" (JStr who) msgs now st.

(** ** Text to speech: the superadmin and the user handler have the same
    text. *)

Definition tts_failed (st : state) (detail : string)
    (issued : list fetch_request) : outcome :=
  {| resp := {| status := 500; sent := error_detail "tts_failed" detail |};
     final := st; calls := issued |}.

(** [(settings?.tts_engine || TTS_ENGINE).toLowerCase()] *)
Definition engine (settings : settings_row) : string :=
  toLowerCase (or_else (Some (tts_engine settings)) (TTS_ENGINE env)).

Definition tts_handler (req : request) (st : state) : outcome :=
  let text := default "" (query_text req) in
  let settings := chat_settings st in
  if String.eqb (engine settings) "browser" then
    respond st 400 (error_json "browser_tts_enabled")
  else
    let v := or_else (query_voice req)
               (or_else (Some (tts_voice settings)) (TTS_VOICE env)) in
    let rq := AudioSpeech bearer v text in
    match fetch rq with
    | Rejected e => tts_failed st e [rq]
    | Resolved r =>
        if negb (ok r) then
          {| resp := {| status := 500; sent := Text (up_text r) |};
             final := st; calls := [rq] |}
        else
          {| resp := {| status := 200; sent := Audio (up_text r) |};
             final := st; calls := [rq] |}
    end.

(** ** Logs (superadmin) *)

Definition wrap_pattern (q : string) : string := "%" +:+ q +:+ "%".

Definition logs_handler (req : request) (st : state) : outcome :=
  let q := default "" (query_q req) in
  let limit := default 50 (query_limit req) in
  let rows :=
    if negb (String.eqb q "") then
      sql_limit limit
        (order_by_id_desc (filter (fun r => row_like (wrap_pattern q) r = true) (chat_logs st)))
    else
      sql_limit limit (order_by_id_desc (chat_logs st)) in
  respond st 200 (Rows rows).

(** ** The routes, as registered with [app.get], [app.put] and [app.post] *)

Definition GET_super_settings (req : request) (st : state) : outcome :=
  requireSuperadmin req st get_settings_handler.

Definition PUT_super_settings (req : request) (st : state) : outcome :=
  requireSuperadmin req st (put_settings_handler req).

Definition POST_super_chat (now : Z) (req : request) (st : state) : outcome :=
  rateLimit 60 60000 now req st (fun st1 =>
    requireSuperadmin req st1 (super_chat_handler now req)).

Definition GET_super_tts (now : Z) (req : request) (st : state) : outcome :=
  rateLimit 30 60000 now req st (fun st1 =>
    requireSuperadmin req st1 (tts_handler req)).

Definition GET_super_logs (req : request) (st : state) : outcome :=
  requireSuperadmin req st (logs_handler req).

Definition POST_chat_user_send (now : Z) (req : request) (st : state) : outcome :=
  rateLimit 30 60000 now req st (fun st1 =>
    requireUser req st1 (user_send_handler now req)).

Definition GET_tts (now : Z) (req : request) (st : state) : outcome :=
  rateLimit 30 60000 now req st (tts_handler req).

End Server.

(** ** The server as a state machine

    The routes that can change the state, and the states a server started on
    an empty database reaches by serving requests; the provider may answer
    each request differently. *)

Inductive route :=
| PutSettings
| SuperChat
| SuperTts
| UserSend
| UserTts.

Definition serve (env : process_env) (fetch : fetch_request -> fetch_result)
    (jwt_verify : string -> option string -> string -> option jsval)
    (jwt_decode : string -> jsval) (toISOString : Z -> string)
    (r : route) (now : Z) (req : request) (st : state) : outcome :=
  match r with
  | PutSettings => PUT_super_settings env jwt_verify jwt_decode req st
  | SuperChat => POST_super_chat env fetch jwt_verify jwt_decode toISOString now req st
  | SuperTts => GET_super_tts env fetch jwt_verify jwt_decode now req st
  | UserSend => POST_chat_user_send env fetch jwt_verify jwt_decode toISOString now req st
  | UserTts => GET_tts env fetch now req st
  end.

Inductive reachable (env : process_env)
    (jwt_verify : string -> option string -> string -> option jsval)
    (jwt_decode : string -> jsval) (toISOString : Z -> string) : state -> Prop :=
| reachable_start :
    reachable env jwt_verify jwt_decode toISOString
      {| bucket := ∅; chat_settings := default_settings; chat_logs := [] |}
| reachable_serve st fetch r now req :
    reachable env jwt_verify jwt_decode toISOString st ->
    reachable env jwt_verify jwt_decode toISOString
      (final (serve env fetch jwt_verify jwt_decode toISOString r now req st)).

(** What a successful chat call of the SQLite-backed server leaves behind:
    one upstream request, the reply in the response, and one new row. *)
Definition logged_once (sc : string) (iso_now : string) (st : state)
    (out : outcome) : Prop :=
  exists authorization chat_model sequence answer usage row,
    calls out = [ChatCompletions authorization chat_model sequence]
    /\ sent (resp out)
       = Json (JObj [("reply", answer); ("usage", usage);
                     ("created_at", JStr iso_now)])
    /\ chat_logs (final out) = chat_logs st ++ [row]
    /\ scope row = sc
    /\ reply row = answer
    /\ messages row = stringify_array sequence.

(** ** Speech to text

    The superadmin and the user handler have the same text.  [req.file] is
    what [upload.single('audio')] leaves: the uploaded bytes, or nothing. *)

Definition crlf : string :=
  String (ascii_of_nat 13) (String (ascii_of_nat 10) EmptyString).

Definition in_quotes (s : string) : string :=
  String dquote (s +:+ String dquote EmptyString).

(** ['----micron' + Math.random().toString(16).slice(2)], for the digits
    [rnd] that the random number yields. *)
Definition boundary (rnd : string) : string := "----micron" +:+ rnd.

(** The array [parts]. *)
Definition multipart_parts (b : string) (file : string) : list string :=
  [ "--" +:+ b +:+ crlf +:+ "Content-Disposition: form-data; name="
      +:+ in_quotes "model" +:+ crlf +:+ crlf +:+ "audio-transcriptions-1" +:+ crlf;
    "--" +:+ b +:+ crlf +:+ "Content-Disposition: form-data; name="
      +:+ in_quotes "file" +:+ "; filename=" +:+ in_quotes "audio.webm" +:+ crlf
      +:+ "Content-Type: application/octet-stream" +:+ crlf +:+ crlf;
    file;
    crlf +:+ "--" +:+ b +:+ "--" ].

(** [Buffer.concat(parts.map(...))] *)
Definition Buffer_concat (parts : list string) : string :=
  fold_right String.append EmptyString parts.

Inductive stt_request :=
| AudioTranscriptions (authorization : string) (content_type : string)
    (payload_bytes : string).

Record stt_outcome := {
  stt_resp : response;
  stt_final : state;
  stt_calls : list stt_request
}.

Definition transcription_request (env : process_env) (rnd : string)
    (file : string) : stt_request :=
  AudioTranscriptions (bearer env)
    ("multipart/form-data; boundary=" +:+ boundary rnd)
    (Buffer_concat (multipart_parts (boundary rnd) file)).

Definition stt_handler (env : process_env)
    (fetch_stt : stt_request -> fetch_result) (rnd : string)
    (file : option string) (st : state) : stt_outcome :=
  match file with
  | None =>
      {| stt_resp := {| status := 400; sent := error_json "audio file required" |};
         stt_final := st; stt_calls := [] |}
  | Some bytes =>
      let rq := transcription_request env rnd bytes in
      match fetch_stt rq with
      | Rejected e =>
          {| stt_resp := {| status := 500; sent := error_detail "stt_failed" e |};
             stt_final := st; stt_calls := [rq] |}
      | Resolved r =>
          match up_json r with
          | JsonError e =>
              {| stt_resp := {| status := 500; sent := error_detail "stt_failed" e |};
                 stt_final := st; stt_calls := [rq] |}
          | JsonOk data =>
              {| stt_resp := {| status := if ok r then 200 else 500; sent := Json data |};
                 stt_final := st; stt_calls := [rq] |}
          end
      end
  end.

(** ** Serving a sequence of requests

    An event is one request with the route it hits, the clock reading and
    the way the provider behaves while it is served. *)

Record event := {
  ev_fetch : fetch_request -> fetch_result;
  ev_route : route;
  ev_now : Z;
  ev_req : request
}.

(** The outcomes in order, and the state left behind. *)
Fixpoint run (env : process_env)
    (jwt_verify : string -> option string -> string -> option jsval)
    (jwt_decode : string -> jsval) (toISOString : Z -> string)
    (evs : list event) (st : state) : list outcome * state :=
  match evs with
  | [] => ([], st)
  | e :: evs' =>
      let o := serve env (ev_fetch e) jwt_verify jwt_decode toISOString
                 (ev_route e) (ev_now e) (ev_req e) st in
      let rest := run env jwt_verify jwt_decode toISOString evs' (final o) in
      (o :: fst rest, snd rest)
  end.

Definition is_chat (r : route) : bool :=
  match r with
  | SuperChat | UserSend => true
  | _ => false
  end.

(** How many of the events are chat requests answered with 200. *)
Fixpoint answered_chats (evs : list event) (outs : list outcome) : nat :=
  match evs, outs with
  | e :: evs', o :: outs' =>
      (if is_chat (ev_route e) && (status (resp o) =? 200)
       then S (answered_chats evs' outs')
       else answered_chats evs' outs')
  | _, _ => 0%nat
  end.

(** The same request with other credentials. *)
Definition with_credentials (req : request) (cookie header : option string)
  : request :=
  {| x_forwarded_for := x_forwarded_for req; remoteAddress := remoteAddress req;
     x_admin := header; cookie_access := cookie; body := body req;
     query_text := query_text req; query_voice := query_voice req;
     query_q := query_q req; query_limit := query_limit req |}.

(** What every row written by the chat routes satisfies. *)
Definition well_formed_row (r : log_row) : Prop :=
  (scope r = "super" \/ scope r = "user")
  /\ nullish (reply r) = false
  /\ (tokens_prompt r = JNull \/ truthy (tokens_prompt r) = true)
  /\ (tokens_completion r = JNull \/ truthy (tokens_completion r) = true)
  /\ (scope r = "user" ->
      exists s, actor r = JStr s
                /\ (String.prefix "user:" s = true \/ String.prefix "ip:" s = true)).


End Sqlite.

(* ===================================================================== *)
(** * The in-house server, [micronforce_inhouse/server/index.js] *)
(* ===================================================================== *)

Module InHouse.
Import Js Http.

(** ** Config and state *)

Record process_env := {
  env_OPENAI_API_KEY : option string;
  env_ADMIN_BYPASS_TOKEN : option string;
  env_CHAT_MODEL : option string;
  env_TTS_ENGINE : option string;
  env_TTS_VOICE : option string
}.

Definition OPENAI_API_KEY (e : process_env) : string := or_else (env_OPENAI_API_KEY e) "".
Definition ADMIN_BYPASS_TOKEN (e : process_env) : string := or_else (env_ADMIN_BYPASS_TOKEN e) "".

(** [let settings = { model, tts_engine, tts_voice }]; a field holds
    whatever truthy value a settings update stored. *)
Record settings_obj := {
  model : jsval;
  tts_engine : jsval;
  tts_voice : jsval
}.

Definition initial_settings (e : process_env) : settings_obj :=
  {| model := JStr (or_else (env_CHAT_MODEL e) "gpt-4o-mini");
     tts_engine := JStr (or_else (env_TTS_ENGINE e) "openai");
     tts_voice := JStr (or_else (env_TTS_VOICE e) "alloy") |}.

(** An element of [const logs = []]. *)
Record log_entry := {
  created_at : string;
  scope : string;
  actor : jsval;
  messages : string;
  reply : jsval
}.

Record state := {
  settings : settings_obj;
  logs : list log_entry
}.

Record request := {
  x_admin : option string;           (* req.header('x-admin') *)
  body : jsval;                      (* req.body *)
  query_text : option string;        (* req.query.text *)
  query_voice : option string;       (* req.query.voice *)
  query_q : option string;           (* req.query.q *)
  query_limit : option Z             (* req.query.limit, which no route reads *)
}.

Inductive payload :=
| Json (v : jsval)
| SettingsJson (s : settings_obj)
| Entries (l : list log_entry)
| Text (s : string)
| Audio (bytes : string).

Record response := { status : Z; sent : payload }.

Definition error_json (code : string) : payload :=
  Json (JObj [("error", JStr code)]).

Definition error_detail (code detail : string) : payload :=
  Json (JObj [("error", JStr code); ("detail", JStr detail)]).

(** The upstream requests: the SDK's [client.chat.completions.create] and
    the REST call of [ttsBuffer]. *)
Inductive upstream_request :=
| Create (chat_model : jsval) (chat_messages : jsval)   (* temperature: 0.7 *)
| AudioSpeech (authorization : string) (voice : jsval) (input : string).

(** The SDK resolves with the completion object or rejects. *)
Inductive create_result :=
| CreateRejected (detail : string)
| CreateResolved (completion : list (string * jsval)).

Record outcome := {
  resp : response;
  final : state;
  calls : list upstream_request
}.

Definition respond (st : state) (s : Z) (p : payload) : outcome :=
  {| resp := {| status := s; sent := p |}; final := st; calls := [] |}.

Section Server.

Variable env : process_env.
Variable create : jsval -> jsval -> create_result.
Variable fetch : string -> jsval -> string -> fetch_result.
Variable toISOString : Z -> string.

(** ** Helpers *)

(** [new Date().toISOString().replace('T',' ').slice(0,19)] *)
Definition nowISO (now : Z) : string :=
  slice0 19 (replace_first "T" " " (toISOString now)).

(** The requests [requireAdmin] lets through. *)
Definition admits (req : request) : bool :=
  negb (String.eqb (ADMIN_BYPASS_TOKEN env) "")
  && match x_admin req with
     | Some token => String.eqb token (ADMIN_BYPASS_TOKEN env)
     | None => false
     end.

Definition requireAdmin (req : request) (st : state)
    (next : state -> outcome) : outcome :=
  if String.eqb (ADMIN_BYPASS_TOKEN env) "" then
    respond st 401 (error_json "admin_token_missing")
  else
    match x_admin req with
    | Some token =>
        if String.eqb token (ADMIN_BYPASS_TOKEN env) then next st
        else respond st 401 (error_json "unauthorized")
    | None => respond st 401 (error_json "unauthorized")
    end.

(** [resp.choices?.[0]?.message?.content] *)
Definition first_choice_content (completion : list (string * jsval)) : jsval :=
  opt_get (opt_get (opt_first (field "choices" completion)) "message") "content".

(** [settings.model || 'gpt-4o-mini'] *)
Definition chat_model_of (st : state) : jsval :=
  js_or (model (settings st)) (JStr "gpt-4o-mini").

(** [callChat(messages)]: the reply, or the rejection of the SDK call. *)
Definition callChat (st : state) (msgs : jsval) : upstream_request * (string + jsval) :=
  (Create (chat_model_of st) msgs,
   match create (chat_model_of st) msgs with
   | CreateRejected e => inl e
   | CreateResolved completion =>
       inr (js_or (first_choice_content completion) (JStr ""))
   end).

(** [ttsBuffer(text, voice)]: the audio buffer, or what it throws. *)
Definition ttsBuffer (st : state) (text : string) (voice : option string)
  : upstream_request * (string + string) :=
  let v := match voice with
           | Some s => if String.eqb s "" then js_or (tts_voice (settings st)) (JStr "alloy")
                       else JStr s
           | None => js_or (tts_voice (settings st)) (JStr "alloy")
           end in
  let authorization := "Bearer " +:+ OPENAI_API_KEY env in
  (AudioSpeech authorization v text,
   match fetch authorization v text with
   | Rejected e => inl e
   | Resolved r =>
       if negb (ok r) then
         inl ("Error: TTS failed: " +:+ string_of_Z (up_status r) +:+ " " +:+ up_text r)
       else inr (up_text r)
   end).

(** ** Routes *)

Definition get_settings_handler (st : state) : outcome :=
  respond st 200 (SettingsJson (settings st)).

Definition put_settings_handler (req : request) (st : state) : outcome :=
  let b := js_or (body req) (JObj []) in
  let m := opt_get b "model" in
  let e := opt_get b "tts_engine" in
  let v := opt_get b "tts_voice" in
  let s := settings st in
  let s := if truthy m then {| model := m; tts_engine := tts_engine s; tts_voice := tts_voice s |} else s in
  let s := if truthy e then {| model := model s; tts_engine := e; tts_voice := tts_voice s |} else s in
  let s := if truthy v then {| model := model s; tts_engine := tts_engine s; tts_voice := v |} else s in
  respond {| settings := s; logs := logs st |} 200 (SettingsJson s).

(** [const { messages = [] } = req.body || {}] *)
Definition request_messages (req : request) : jsval :=
  js_default (opt_get (js_or (body req) (JObj [])) "messages") (JArr []).

(** The body of both chat routes; they differ in the scope and the actor
    they log. *)
Definition chat (sc : string) (who : jsval) (msgs : jsval) (now : Z)
    (st : state) : outcome :=
  let called := callChat st msgs in
  match snd called with
  | inl e =>
      {| resp := {| status := 500; sent := error_detail "chat_failed" e |};
         final := st; calls := [fst called] |}
  | inr reply =>
      let entry := {| created_at := nowISO now; scope := sc; actor := who;
                      messages := default "" (stringify_opt msgs);
                      reply := reply |} in
      {| resp := {| status := 200; sent := Json (JObj [("reply", reply)]) |};
         final := {| settings := settings st; logs := entry :: logs st |};
         calls := [fst called] |}
  end.

Definition super_chat_handler (now : Z) (req : request) (st : state) : outcome :=
  let b := js_or (body req) (JObj []) in
  let msgs := request_messages req in
  let admin_user := js_default (opt_get b "admin_user") (JStr "superadmin") in
  chat "super" admin_user msgs now st.

Definition user_send_handler (now : Z) (req : request) (st : state) : outcome :=
  let msgs := request_messages req in
  chat "user" (JStr "user") msgs now st.

(** Both TTS routes have the same text. *)
Definition tts_handler (req : request) (st : state) : outcome :=
  let text := default "" (query_text req) in
  let called := ttsBuffer st text (query_voice req) in
  match snd called with
  | inl e =>
      {| resp := {| status := 500; sent := error_detail "tts_failed" e |};
         final := st; calls := [fst called] |}
  | inr buf =>
      {| resp := {| status := 200; sent := Audio buf |};
         final := st; calls := [fst called] |}
  end.

(** [(v || '').toLowerCase()]; [None] when the value has no such method
    and the call throws. *)
Definition lower_text (v : jsval) : option string :=
  match js_or v (JStr "") with
  | JStr s => Some (toLowerCase s)
  | _ => None
  end.

(** The predicate of [logs.filter]. *)
Definition entry_matches (q : string) (r : log_entry) : option bool :=
  match lower_text (reply r) with
  | None => None
  | Some t =>
      if includes t q then Some true
      else Some (includes (toLowerCase (messages r)) q)
  end.

Fixpoint filter_logs (q : string) (l : list log_entry) : option (list log_entry) :=
  match l with
  | [] => Some []
  | r :: l' =>
      match entry_matches q r with
      | None => None
      | Some keep =>
          match filter_logs q l' with
          | None => None
          | Some kept => Some (if keep then r :: kept else kept)
          end
      end
  end.

Definition logs_handler (req : request) (st : state) : outcome :=
  let q := toLowerCase (or_else (query_q req) "") in
  let filtered := if negb (String.eqb q "") then filter_logs q (logs st)
                  else Some (logs st) in
  match filtered with
  | Some l => respond st 200 (Entries (take 200 l))
  | None => respond st 500 (Text "TypeError")   (* Express's error handler *)
  end.

Definition GET_super_settings (req : request) (st : state) : outcome :=
  requireAdmin req st get_settings_handler.

Definition PUT_super_settings (req : request) (st : state) : outcome :=
  requireAdmin req st (put_settings_handler req).

Definition POST_super_chat (now : Z) (req : request) (st : state) : outcome :=
  requireAdmin req st (super_chat_handler now req).

Definition GET_super_tts (req : request) (st : state) : outcome :=
  requireAdmin req st (tts_handler req).

Definition GET_super_logs (req : request) (st : state) : outcome :=
  requireAdmin req st (logs_handler req).

Definition POST_chat_user_send (now : Z) (req : request) (st : state) : outcome :=
  user_send_handler now req st.

Definition GET_tts (req : request) (st : state) : outcome :=
  tts_handler req st.

End Server.

(** What a successful chat call leaves behind: one upstream request, the
    reply in the response, and one new entry at the front of the log. *)
Definition unshifted_once (sc : string) (req : request)
    (st : state) (out : outcome) : Prop :=
  exists chat_model answer entry,
    calls out = [Create chat_model (request_messages req)]
    /\ sent (resp out) = Json (JObj [("reply", answer)])
    /\ logs (final out) = entry :: logs st
    /\ scope entry = sc
    /\ reply entry = answer
    /\ messages entry
       = default "" (stringify_opt (request_messages req)).

(** ** The server as a state machine *)

Inductive route :=
| PutSettings
| SuperChat
| SuperTts
| UserSend
| UserTts.

Definition serve (env : process_env)
    (create : jsval -> jsval -> create_result)
    (fetch : string -> jsval -> string -> fetch_result)
    (toISOString : Z -> string)
    (r : route) (now : Z) (req : request) (st : state) : outcome :=
  match r with
  | PutSettings => PUT_super_settings env req st
  | SuperChat => POST_super_chat env create toISOString now req st
  | SuperTts => GET_super_tts env fetch req st
  | UserSend => POST_chat_user_send create toISOString now req st
  | UserTts => GET_tts env fetch req st
  end.

(** The states reached from start-up; the provider may answer each request
    differently. *)
Inductive reachable (env : process_env) (toISOString : Z -> string)
  : state -> Prop :=
| reachable_start :
    reachable env toISOString {| settings := initial_settings env; logs := [] |}
| reachable_serve st create fetch r now req :
    reachable env toISOString st ->
    reachable env toISOString
      (final (serve env create fetch toISOString r now req st)).

(** No field of the settings object is falsy. *)
Definition all_set (s : settings_obj) : Prop :=
  truthy (model s) = true /\ truthy (tts_engine s) = true
  /\ truthy (tts_voice s) = true.

End InHouse.

(* ===================================================================== *)
(** * Concrete requests, environments and provider behaviours *)
(* ===================================================================== *)

Module Fixtures.
Import Js Http.

Definition iso (now : Z) : string := "2024-05-01T10:20:30.000Z".

Definition user_hi : jsval := JObj [("role", JStr "user"); ("content", JStr "hi")].

Definition completion_hello : jsval :=
  JObj [("choices", JArr [JObj [("message", JObj [("content", JStr "hello")])]]);
        ("usage", JObj [("prompt_tokens", JNum 3); ("completion_tokens", JNum 1)])].

Definition invalid_key : jsval :=
  JObj [("error", JObj [("message", JStr "Incorrect API key provided")])].

Module S.
Import Sqlite.

Definition env : process_env :=
  {| OPENAI_API_KEY := "sk-test"; ADMIN_BYPASS_TOKEN := Some "s3cret";
     env_CHAT_MODEL := None; env_TTS_ENGINE := None; env_TTS_VOICE := None;
     AUTH_JWT_SECRET := None; AUTH_JWT_ISSUER := None |}.

Definition jwt_verify (secret : string) (issuer : option string) (token : string)
  : option jsval := None.
Definition jwt_decode (token : string) : jsval := JNull.

Definition st0 : state :=
  {| bucket := ∅; chat_settings := default_settings; chat_logs := [] |}.

Definition with_prompt (p : string) : state :=
  with_settings st0
    {| model := "gpt-4o-mini"; tts_engine := "openai"; tts_voice := "alloy";
       system_prompt := p |}.

Definition browser_state : state :=
  with_settings st0
    {| model := "gpt-4o-mini"; tts_engine := "browser"; tts_voice := "alloy";
       system_prompt := "" |}.

Definition anonymous (b : jsval) : request :=
  {| x_forwarded_for := None; remoteAddress := Some "10.0.0.7";
     x_admin := None; cookie_access := None; body := b;
     query_text := None; query_voice := None; query_q := None;
     query_limit := None |}.

Definition admin (b : jsval) : request :=
  {| x_forwarded_for := None; remoteAddress := Some "10.0.0.7";
     x_admin := Some "s3cret"; cookie_access := None; body := b;
     query_text := None; query_voice := None; query_q := None;
     query_limit := None |}.

Definition admin_query (q : option string) (limit : option Z) : request :=
  {| x_forwarded_for := None; remoteAddress := Some "10.0.0.7";
     x_admin := Some "s3cret"; cookie_access := None; body := JObj [];
     query_text := Some "hi"; query_voice := None; query_q := q;
     query_limit := limit |}.

Definition chat_body : jsval := JObj [("messages", JArr [user_hi])].

(** The provider answers with a completion. *)
Definition fetch_hello (rq : fetch_request) : fetch_result :=
  Resolved {| up_status := 200; up_text := "(completion)";
              up_json := JsonOk completion_hello |}.

(** The provider answers 200 with an empty object. *)
Definition fetch_empty (rq : fetch_request) : fetch_result :=
  Resolved {| up_status := 200; up_text := "{}"; up_json := JsonOk (JObj []) |}.

(** The provider refuses the key with a JSON error body. *)
Definition fetch_unauthorized (rq : fetch_request) : fetch_result :=
  Resolved {| up_status := 401; up_text := "(error)"; up_json := JsonOk invalid_key |}.

(** A gateway in front of the provider answers 502 with an HTML page. *)
Definition fetch_bad_gateway (rq : fetch_request) : fetch_result :=
  Resolved {| up_status := 502; up_text := "<html>Bad Gateway</html>";
              up_json := JsonError "FetchError: invalid json response body" |}.

(** The row the superadmin chat route logs for an empty conversation
    answered with [r], when it receives the id [i]. *)
Definition row (i : Z) (r : string) : log_row :=
  {| log_id := i; actor := JStr "superadmin"; scope := "super";
     messages := "[]"; reply := JStr r; tokens_prompt := JNull;
     tokens_completion := JNull; created_at := 0 |}.


End S.

Module H.
Import InHouse.

Definition env : process_env :=
  {| env_OPENAI_API_KEY := Some "sk-test"; env_ADMIN_BYPASS_TOKEN := Some "s3cret";
     env_CHAT_MODEL := None; env_TTS_ENGINE := None; env_TTS_VOICE := None |}.

Definition st0 : state := {| settings := initial_settings env; logs := [] |}.

Definition browser_state : state :=
  {| settings := {| model := JStr "gpt-4o-mini"; tts_engine := JStr "browser";
                    tts_voice := JStr "alloy" |};
     logs := [] |}.

Definition admin (b : jsval) : request :=
  {| x_admin := Some "s3cret"; body := b; query_text := Some "hi";
     query_voice := None; query_q := None; query_limit := None |}.

Definition anonymous (b : jsval) : request :=
  {| x_admin := None; body := b; query_text := Some "hi";
     query_voice := None; query_q := None; query_limit := None |}.

Definition admin_query (q : option string) (limit : option Z) : request :=
  {| x_admin := Some "s3cret"; body := JObj []; query_text := None;
     query_voice := None; query_q := q; query_limit := limit |}.

Definition chat_body : jsval := JObj [("messages", JArr [user_hi])].

Definition create_hello (m msgs : jsval) : create_result :=
  CreateResolved [("choices", JArr [JObj [("message", JObj [("content", JStr "hello")])]])].

Definition create_empty (m msgs : jsval) : create_result :=
  CreateResolved [("choices", JArr [])].

(** A completion whose content is a list of parts rather than a string. *)
Definition create_parts (m msgs : jsval) : create_result :=
  CreateResolved
    [("choices",
      JArr [JObj [("message",
                   JObj [("content",
                          JArr [JObj [("type", JStr "text"); ("text", JStr "hello")]])])]])].

(** The speech endpoint answers with audio. *)
Definition fetch_audio (authorization : string) (voice : jsval) (input : string)
  : fetch_result :=
  Resolved {| up_status := 200; up_text := "ID3"; up_json := JsonError "not json" |}.

Definition entry (r : string) : log_entry :=
  {| created_at := "2024-05-01 10:20:30"; scope := "super";
     actor := JStr "superadmin"; messages := "[]"; reply := JStr r |}.

End H.

End Fixtures.

(* ===================================================================== *)
(** * Properties *)
(* ===================================================================== *)

(** ** The rate limiter *)

Section RateLimiter.
Import Sqlite.

Implicit Types (m : gmap string RateBucket) (b : RateBucket).

Lemma allow_unfold m now ip limit w :
  allow m now ip limit w =
  (count (current m now ip w) + 1 <=? limit,
   <[ip := {| count := count (current m now ip w) + 1;
              reset := reset (current m now ip w) |}]> m).
Proof.
  unfold allow, current. destruct (m !! ip) as [b|]; simpl.
  - destruct (reset b <? now); reflexivity.
  - destruct (now + w <? now); reflexivity.
Qed.

Lemma allow_live m now ip limit w b :
  m !! ip = Some b -> now <= reset b ->
  allow m now ip limit w =
  (count b + 1 <=? limit, <[ip := {| count := count b + 1; reset := reset b |}]> m).
Proof.
  intros Hb Hle. rewrite allow_unfold. unfold current. rewrite Hb.
  destruct (Z.ltb_spec (reset b) now); [lia | reflexivity].
Qed.

Lemma allow_expired m now ip limit w b :
  m !! ip = Some b -> reset b < now ->
  allow m now ip limit w =
  (1 <=? limit, <[ip := {| count := 1; reset := now + w |}]> m).
Proof.
  intros Hb Hlt. rewrite allow_unfold. unfold current. rewrite Hb.
  destruct (Z.ltb_spec (reset b) now); [reflexivity | lia].
Qed.

Lemma allow_fresh m now ip limit w :
  m !! ip = None ->
  allow m now ip limit w =
  (1 <=? limit, <[ip := {| count := 1; reset := now + w |}]> m).
Proof.
  intros Hb. rewrite allow_unfold. unfold current. rewrite Hb. reflexivity.
Qed.

(** Calls that all fall inside the key's window count up from the stored
    count and leave the window's end alone. *)
Lemma allow_all_live limit w ip ts : forall m b,
  m !! ip = Some b ->
  Forall (fun u => u <= reset b) ts ->
  fst (allow_all m ip limit w ts)
    = map (fun j => count b + Z.of_nat j <=? limit) (seq 1 (length ts))
  /\ snd (allow_all m ip limit w ts) !! ip
    = Some {| count := count b + Z.of_nat (length ts); reset := reset b |}.
Proof.
  induction ts as [|u ts IH]; intros m b Hb Hall.
  - simpl. split; [reflexivity|]. rewrite Hb. destruct b; simpl. do 2 f_equal. lia.
  - apply Forall_cons in Hall as [Hu Hall]. cbn [allow_all].
    rewrite (allow_live _ _ _ _ _ _ Hb Hu). cbn [fst snd].
    destruct (IH (<[ip := {| count := count b + 1; reset := reset b |}]> m)
                 {| count := count b + 1; reset := reset b |}) as [IH1 IH2].
    { apply lookup_insert_eq. }
    { exact Hall. }
    cbn [count reset] in IH1, IH2. split.
    + cbn [length seq map]. f_equal. rewrite IH1.
      rewrite <- (seq_shift (length ts) 1), map_map.
      apply map_ext. intros j. f_equal. lia.
    + rewrite IH2. do 2 f_equal. cbn [length]. lia.
Qed.

Lemma verdicts_upto (n : nat) :
  map (fun j => Z.of_nat j <=? Z.of_nat n) (seq 1 (S n)) = replicate n true ++ [false].
Proof.
  replace (S n) with (n + 1)%nat by lia. rewrite seq_app, map_app. f_equal.
  - apply list_eq. intros i. rewrite list_lookup_fmap.
    destruct (decide (i < n)%nat) as [Hi|Hi].
    + rewrite lookup_seq_lt by lia. rewrite lookup_replicate_2 by lia. simpl.
      f_equal. apply Z.leb_le. lia.
    + rewrite lookup_seq_ge by lia. simpl. symmetry.
      apply lookup_replicate_None. lia.
  - simpl. f_equal. apply Z.leb_gt. lia.
Qed.


Lemma history_step cs : forall m i c before after,
  cs !! i = Some c ->
  (m :: history m cs) !! i = Some before ->
  history m cs !! i = Some after ->
  after = after_call before c.
Proof.
  induction cs as [|c0 cs IH]; intros m i c before after Hc Hb Ha.
  - destruct i; discriminate.
  - destruct i as [|i]; simpl in *.
    + congruence.
    + eapply IH; eassumption.
Qed.

Lemma after_call_other m c k :
  key c <> k -> after_call m c !! k = m !! k.
Proof.
  intros Hne. unfold after_call. rewrite allow_unfold. simpl.
  apply lookup_insert_ne. exact Hne.
Qed.

(** C1.  [allow] counts a call in the key's current window, or opens a new
    window when the stored one has expired or the key has none, and admits
    the call iff the new count is within the limit.  Hence, for a key without
    a bucket, [limit + 1] calls inside the window of the first one give
    [limit] admissions followed by one refusal, and the next call after that
    window has elapsed is admitted again, for every limit of at least one
    (the routes are registered with 60 and 30). *)
Theorem allow_fixed_window :
  (forall m now ip limit w,
      (m !! ip = None ->
       allow m now ip limit w
       = (1 <=? limit, <[ip := {| count := 1; reset := now + w |}]> m))
      /\ (forall b, m !! ip = Some b -> reset b < now ->
          allow m now ip limit w
          = (1 <=? limit, <[ip := {| count := 1; reset := now + w |}]> m))
      /\ (forall b, m !! ip = Some b -> now <= reset b ->
          allow m now ip limit w
          = (count b + 1 <=? limit,
             <[ip := {| count := count b + 1; reset := reset b |}]> m)))
  /\ (forall m ip limit w t0 later t,
         m !! ip = None ->
         0 <= limit ->
         length later = Z.to_nat limit ->
         Forall (fun u => u <= t0 + w) later ->
         t0 + w < t ->
         let run := allow_all m ip limit w (t0 :: later) in
         fst run = replicate (Z.to_nat limit) true ++ [false]
         /\ fst (allow (snd run) t ip limit w) = (1 <=? limit)
         /\ (1 <= limit -> fst (allow (snd run) t ip limit w) = true)).
Proof.
  split.
  - intros m now ip limit w. split; [|split].
    + apply allow_fresh.
    + intros b. apply allow_expired.
    + intros b. apply allow_live.
  - intros m ip limit w t0 later t Hnone Hlim Hlen Hin Hafter run.
    subst run. cbn [allow_all]. rewrite (allow_fresh _ _ _ _ _ Hnone). cbn [fst snd].
    destruct (allow_all_live limit w ip later
                (<[ip := {| count := 1; reset := t0 + w |}]> m)
                {| count := 1; reset := t0 + w |}) as [Hv Hs].
    { apply lookup_insert_eq. }
    { exact Hin. }
    cbn [count reset] in Hv, Hs. split.
    + rewrite Hv, Hlen. rewrite <- (verdicts_upto (Z.to_nat limit)).
      cbn [seq map]. f_equal.
      * f_equal. lia.
      * rewrite <- (seq_shift (Z.to_nat limit) 1), map_map.
        apply map_ext. intros j. f_equal; lia.
    + assert (Hnext : fst (allow (snd (allow_all
                 (<[ip := {| count := 1; reset := t0 + w |}]> m) ip limit w later))
                 t ip limit w) = (1 <=? limit)).
      { rewrite (allow_expired _ _ _ _ _ _ Hs); [reflexivity|]. simpl. lia. }
      split; [exact Hnext|]. intros Hpos. rewrite Hnext. apply Z.leb_le. exact Hpos.
Qed.

Lemma allow_fixed_window_witness :
  (∅ : gmap string RateBucket) !! "10.0.0.7" = None
  /\ 0 <= 2
  /\ length [20; 60000] = Z.to_nat 2
  /\ Forall (fun u => u <= 0 + 60000) [20; 60000]
  /\ 0 + 60000 < 60001
  /\ 1 <= 2
  /\ (let run := allow_all ∅ "10.0.0.7" 2 60000 (0 :: [20; 60000]) in
      fst run = [true; true; false]
      /\ fst (allow (snd run) 60001 "10.0.0.7" 2 60000) = true).
Proof.
  assert (H0 : (∅ : gmap string RateBucket) !! "10.0.0.7" = None) by reflexivity.
  assert (H1 : 0 <= 2) by lia.
  assert (H2 : length [20; 60000] = Z.to_nat 2) by reflexivity.
  assert (H3 : Forall (fun u => u <= 0 + 60000) [20; 60000])
    by (repeat constructor; lia).
  assert (H4 : 0 + 60000 < 60001) by lia.
  assert (H5 : 1 <= 2) by lia.
  repeat (split; [assumption|]).
  pose proof (proj2 allow_fixed_window ∅ "10.0.0.7" 2 60000 0 [20; 60000] 60001
                H0 H1 H2 H3 H4) as (Hburst & _ & Hnext).
  split; [exact Hburst|exact (Hnext H5)].
Defined.

(** C9.  Along any sequence of gated calls, a key's stored count never goes
    down from one call to the next unless that call finds the key's window
    expired; a call on the key inside its window adds exactly one, calls on
    other keys leave it alone, and the call that finds the window expired
    restarts the count at one, in one step, together with a new window. *)
Theorem count_monotone_between_resets m cs i c before after k :
  cs !! i = Some c ->
  (m :: history m cs) !! i = Some before ->
  history m cs !! i = Some after ->
  (~ expired before c k -> count_of before k <= count_of after k)
  /\ (expired before c k ->
      after !! k = Some {| count := 1; reset := at_time c + with_window c |})
  /\ (key c <> k -> after !! k = before !! k)
  /\ (key c = k -> forall b, before !! k = Some b -> at_time c <= reset b ->
      after !! k = Some {| count := count b + 1; reset := reset b |}).
Proof.
  intros Hc Hb Ha. rewrite (history_step _ _ _ _ _ _ Hc Hb Ha). clear.
  assert (Hexp : expired before c k ->
            after_call before c !! k
            = Some {| count := 1; reset := at_time c + with_window c |}).
  { intros [<- (b & Hk & Hlt)]. unfold after_call.
    rewrite (allow_expired _ _ _ _ _ _ Hk Hlt). apply lookup_insert_eq. }
  assert (Hlive : key c = k -> forall b, before !! k = Some b ->
            at_time c <= reset b ->
            after_call before c !! k
            = Some {| count := count b + 1; reset := reset b |}).
  { intros <- b Hk Hle. unfold after_call.
    rewrite (allow_live _ _ _ _ _ _ Hk Hle). apply lookup_insert_eq. }
  split; [|split; [exact Hexp|split; [apply after_call_other|exact Hlive]]].
  intros Hno. unfold count_of.
  destruct (decide (key c = k)) as [Heq|Hne].
  - destruct (before !! k) as [b|] eqn:Hk.
    + destruct (Z.lt_ge_cases (reset b) (at_time c)) as [Hlt|Hle].
      * exfalso. apply Hno. split; [exact Heq|]. exists b. split; [exact Hk|exact Hlt].
      * rewrite (Hlive Heq b eq_refl Hle). simpl. lia.
    + subst k. unfold after_call. rewrite (allow_fresh _ _ _ _ _ Hk).
      cbn [snd]. rewrite lookup_insert_eq. simpl. lia.
  - rewrite (after_call_other _ _ _ Hne). reflexivity.
Qed.

Lemma count_monotone_between_resets_witness :
  let c1 := {| at_time := 0; key := "a"; with_limit := 60; with_window := 60000 |} in
  let c2 := {| at_time := 70000; key := "a"; with_limit := 30; with_window := 60000 |} in
  [c1; c2] !! 1%nat = Some c2
  /\ (∅ :: history ∅ [c1; c2]) !! 1%nat = Some (after_call ∅ c1)
  /\ history ∅ [c1; c2] !! 1%nat = Some (after_call (after_call ∅ c1) c2)
  /\ expired (after_call ∅ c1) c2 "a"
  /\ after_call (after_call ∅ c1) c2 !! "a"
     = Some {| count := 1; reset := 70000 + 60000 |}.
Proof.
  intros c1 c2.
  assert (H0 : [c1; c2] !! 1%nat = Some c2) by reflexivity.
  assert (H1 : (∅ :: history ∅ [c1; c2]) !! 1%nat = Some (after_call ∅ c1))
    by reflexivity.
  assert (H2 : history ∅ [c1; c2] !! 1%nat = Some (after_call (after_call ∅ c1) c2))
    by reflexivity.
  assert (H3 : expired (after_call ∅ c1) c2 "a").
  { split; [reflexivity|]. exists {| count := 1; reset := 60000 |}.
    split; [reflexivity|]. simpl. lia. }
  repeat (split; [assumption|]).
  exact (proj1 (proj2 (count_monotone_between_resets ∅ [c1; c2] 1 c2
                         (after_call ∅ c1) (after_call (after_call ∅ c1) c2) "a"
                         H0 H1 H2)) H3).
Defined.

End RateLimiter.

(** ** The guards *)

Section Guards.
Import Js.

Lemma is_string_spec v s : is_string v s = true <-> v = JStr s.
Proof.
  destruct v; simpl; try (split; [discriminate|intros H; discriminate H]).
  rewrite String.eqb_eq. split; [intros ->; reflexivity|intros H; congruence].
Qed.

Lemma sqlite_bypass_spec env req :
  Sqlite.bypass env req = true
  <-> exists t, Sqlite.ADMIN_BYPASS_TOKEN env = Some t /\ t <> ""
                /\ Sqlite.x_admin req = Some t.
Proof.
  unfold Sqlite.bypass.
  destruct (Sqlite.ADMIN_BYPASS_TOKEN env) as [t|].
  - destruct (String.eqb_spec t "") as [->|Hne]; simpl.
    + split; [discriminate|]. intros (t & Ht & Hne & _). congruence.
    + destruct (Sqlite.x_admin req) as [h|].
      * rewrite String.eqb_eq. split.
        -- intros ->. exists t. auto.
        -- intros (t' & Ht & _ & Hh). congruence.
      * split; [discriminate|]. intros (t' & _ & _ & Hh). discriminate.
  - split; [discriminate|]. intros (t & Ht & _). discriminate.
Qed.

Lemma inhouse_admits_spec env req :
  InHouse.admits env req = true
  <-> InHouse.ADMIN_BYPASS_TOKEN env <> ""
      /\ InHouse.x_admin req = Some (InHouse.ADMIN_BYPASS_TOKEN env).
Proof.
  unfold InHouse.admits.
  destruct (String.eqb_spec (InHouse.ADMIN_BYPASS_TOKEN env) "") as [He|Hne]; simpl.
  - split; [discriminate|]. intros [Hne _]. contradiction.
  - destruct (InHouse.x_admin req) as [h|].
    + rewrite String.eqb_eq. split.
      * intros ->. auto.
      * intros [_ Hh]. congruence.
    + split; [discriminate|]. intros [_ Hh]. discriminate.
Qed.

Lemma requireAdmin_unfold env req st next :
  InHouse.requireAdmin env req st next
  = if InHouse.admits env req then next st
    else InHouse.respond st 401
           (InHouse.error_json
              (if String.eqb (InHouse.ADMIN_BYPASS_TOKEN env) ""
               then "admin_token_missing" else "unauthorized")).
Proof.
  unfold InHouse.requireAdmin, InHouse.admits.
  destruct (String.eqb (InHouse.ADMIN_BYPASS_TOKEN env) ""); [reflexivity|].
  simpl. destruct (InHouse.x_admin req) as [h|]; [|reflexivity].
  destruct (String.eqb h _); reflexivity.
Qed.

(** C7.  [requireSuperadmin] lets a request through iff the role resolved
    from the cookie is ["superadmin"] or the [x-admin] header equals the
    configured (non-empty) bypass token; [requireAdmin] of the in-house
    server, which resolves no role, lets it through iff the header equals the
    configured token.  A request that is let through reaches the rest of the
    chain on the same state; any other gets 401 with an [error] reason, the
    state is untouched and the handler is not run. *)
Theorem superadmin_guard :
  (forall env jwt_verify jwt_decode req st,
      (Sqlite.admits env jwt_verify jwt_decode req = true
       <-> Sqlite.getRoleFromCookie env jwt_verify jwt_decode req = JStr "superadmin"
           \/ exists t, Sqlite.ADMIN_BYPASS_TOKEN env = Some t /\ t <> ""
                        /\ Sqlite.x_admin req = Some t)
      /\ (Sqlite.admits env jwt_verify jwt_decode req = true ->
          forall next,
            Sqlite.requireSuperadmin env jwt_verify jwt_decode req st next = next st)
      /\ (Sqlite.admits env jwt_verify jwt_decode req = false ->
          forall next,
            Sqlite.requireSuperadmin env jwt_verify jwt_decode req st next
            = Sqlite.respond st 401 (Sqlite.error_json "Superadmin required")))
  /\ (forall env req st,
         (InHouse.admits env req = true
          <-> InHouse.ADMIN_BYPASS_TOKEN env <> ""
              /\ InHouse.x_admin req = Some (InHouse.ADMIN_BYPASS_TOKEN env))
         /\ (InHouse.admits env req = true ->
             forall next, InHouse.requireAdmin env req st next = next st)
         /\ (InHouse.admits env req = false ->
             forall next,
               InHouse.requireAdmin env req st next
               = InHouse.respond st 401
                   (InHouse.error_json
                      (if String.eqb (InHouse.ADMIN_BYPASS_TOKEN env) ""
                       then "admin_token_missing" else "unauthorized")))).
Proof.
  split.
  - intros env jv jd req st. split; [|split].
    + unfold Sqlite.admits. rewrite orb_true_iff, is_string_spec, sqlite_bypass_spec.
      reflexivity.
    + unfold Sqlite.admits, Sqlite.requireSuperadmin. intros H next.
      destruct (is_string _ _); [reflexivity|]. simpl in H. rewrite H. reflexivity.
    + unfold Sqlite.admits, Sqlite.requireSuperadmin. intros H next.
      apply orb_false_iff in H as [-> ->]. reflexivity.
  - intros env req st. split; [apply inhouse_admits_spec|split].
    + unfold InHouse.admits, InHouse.requireAdmin. intros H next.
      apply andb_true_iff in H as [H1 H2].
      destruct (String.eqb (InHouse.ADMIN_BYPASS_TOKEN env) ""); [discriminate|].
      destruct (InHouse.x_admin req); [|discriminate]. rewrite H2. reflexivity.
    + unfold InHouse.admits, InHouse.requireAdmin. intros H next.
      destruct (String.eqb (InHouse.ADMIN_BYPASS_TOKEN env) ""); [reflexivity|].
      simpl in H. destruct (InHouse.x_admin req); [|reflexivity].
      rewrite H. reflexivity.
Qed.


Lemma superadmin_guard_witness :
  Sqlite.admits Fixtures.S.env Fixtures.S.jwt_verify Fixtures.S.jwt_decode
    (Fixtures.S.admin (JObj [])) = true
  /\ (forall next,
        Sqlite.requireSuperadmin Fixtures.S.env Fixtures.S.jwt_verify
          Fixtures.S.jwt_decode (Fixtures.S.admin (JObj [])) Fixtures.S.st0 next
        = next Fixtures.S.st0)
  /\ Sqlite.admits Fixtures.S.env Fixtures.S.jwt_verify Fixtures.S.jwt_decode
       (Fixtures.S.anonymous (JObj [])) = false
  /\ (forall next,
        Sqlite.requireSuperadmin Fixtures.S.env Fixtures.S.jwt_verify
          Fixtures.S.jwt_decode (Fixtures.S.anonymous (JObj [])) Fixtures.S.st0 next
        = Sqlite.respond Fixtures.S.st0 401 (Sqlite.error_json "Superadmin required")).
Proof.
  assert (H1 : Sqlite.admits Fixtures.S.env Fixtures.S.jwt_verify Fixtures.S.jwt_decode
                 (Fixtures.S.admin (JObj [])) = true) by reflexivity.
  assert (H2 : Sqlite.admits Fixtures.S.env Fixtures.S.jwt_verify Fixtures.S.jwt_decode
                 (Fixtures.S.anonymous (JObj [])) = false) by reflexivity.
  split; [exact H1|]. split.
  - exact (proj1 (proj2 (proj1 superadmin_guard Fixtures.S.env Fixtures.S.jwt_verify
                           Fixtures.S.jwt_decode (Fixtures.S.admin (JObj []))
                           Fixtures.S.st0)) H1).
  - split; [exact H2|].
    exact (proj2 (proj2 (proj1 superadmin_guard Fixtures.S.env Fixtures.S.jwt_verify
                           Fixtures.S.jwt_decode (Fixtures.S.anonymous (JObj []))
                           Fixtures.S.st0)) H2).
Defined.

End Guards.

(** ** Settings *)

Section Settings.
Import Js.

Lemma coalesce_nullish p col : nullish p = true -> Sqlite.coalesce p col = col.
Proof. destruct p; simpl; intros H; try discriminate; reflexivity. Qed.

Lemma sqlite_put_settings req st :
  let b := js_or (Sqlite.body req) (JObj []) in
  Sqlite.final (Sqlite.put_settings_handler req st)
  = if forallb Sqlite.bindable (Sqlite.update_params b)
    then Sqlite.with_settings st (Sqlite.update_settings b (Sqlite.chat_settings st))
    else st.
Proof.
  intros b. unfold Sqlite.put_settings_handler. fold b.
  destruct (forallb Sqlite.bindable (Sqlite.update_params b)); reflexivity.
Qed.

(** A column is untouched by a run of updates none of which names it. *)
Lemma after_updates_frame (col : Sqlite.settings_row -> string) (k : string) :
  (forall b r, nullish (opt_get b k) = true ->
               col (Sqlite.update_settings b r) = col r) ->
  forall reqs st,
    Forall (fun req => nullish (opt_get (js_or (Sqlite.body req) (JObj [])) k) = true) reqs ->
    col (Sqlite.chat_settings (Sqlite.after_updates reqs st))
    = col (Sqlite.chat_settings st).
Proof.
  intros Hcol reqs. induction reqs as [|req reqs IH]; intros st Hall.
  - reflexivity.
  - apply Forall_cons in Hall as [Hreq Hall]. unfold Sqlite.after_updates in *.
    cbn [fold_left]. rewrite (IH _ Hall), sqlite_put_settings. cbv zeta.
    destruct (forallb _ _); [|reflexivity]. simpl. apply Hcol. exact Hreq.
Qed.

(** C2 (as amended).  In the SQLite-backed server an update whose four
    fields are values the driver binds (absent, [null], strings, numbers)
    replaces a column iff the input field is present and not [null]: a
    string is stored as given, the empty string included, a number as the
    text of a REAL, and an absent or [null] field keeps the stored value; an
    update with a field the driver refuses (a boolean, an array, an object)
    is answered 500 and changes nothing.  A field that is absent or [null]
    in every request of a sequence keeps its value along the sequence.  In
    the in-house server [model], [tts_engine] and [tts_voice] are replaced iff
    the input field is truthy (present and non-empty) and kept otherwise.  In
    both, an update that supplies only a voice leaves the other fields as
    they were; nothing but the settings changes. *)
Theorem settings_update_coalesces :
  (forall req st,
      let b := js_or (Sqlite.body req) (JObj []) in
      let old := Sqlite.chat_settings st in
      let out := Sqlite.put_settings_handler req st in
      let new := Sqlite.chat_settings (Sqlite.final out) in
      let replaced (k : string) (col : Sqlite.settings_row -> string) :=
        (nullish (opt_get b k) = true -> col new = col old)
        /\ (forall s, opt_get b k = JStr s -> col new = s)
        /\ (forall n, Z.abs n < 10 ^ 15 -> opt_get b k = JNum n ->
            col new = string_of_Z n +:+ ".0") in
      Sqlite.bucket (Sqlite.final out) = Sqlite.bucket st
      /\ Sqlite.chat_logs (Sqlite.final out) = Sqlite.chat_logs st
      /\ (forallb Sqlite.bindable (Sqlite.update_params b) = false ->
          Sqlite.status (Sqlite.resp out) = 500 /\ Sqlite.final out = st)
      /\ (forallb Sqlite.bindable (Sqlite.update_params b) = true ->
          Sqlite.resp out
          = {| Sqlite.status := 200; Sqlite.sent := Sqlite.settings_json new |}
          /\ replaced "model" Sqlite.model
          /\ replaced "tts_engine" Sqlite.tts_engine
          /\ replaced "tts_voice" Sqlite.tts_voice
          /\ replaced "system_prompt" Sqlite.system_prompt))
  /\ (forall reqs st,
         let absent k req :=
           nullish (opt_get (js_or (Sqlite.body req) (JObj [])) k) = true in
         let new := Sqlite.chat_settings (Sqlite.after_updates reqs st) in
         let old := Sqlite.chat_settings st in
         (Forall (absent "model") reqs -> Sqlite.model new = Sqlite.model old)
         /\ (Forall (absent "tts_engine") reqs ->
             Sqlite.tts_engine new = Sqlite.tts_engine old)
         /\ (Forall (absent "tts_voice") reqs ->
             Sqlite.tts_voice new = Sqlite.tts_voice old)
         /\ (Forall (absent "system_prompt") reqs ->
             Sqlite.system_prompt new = Sqlite.system_prompt old))
  /\ (forall req st x,
         Sqlite.body req = JObj [("tts_voice", JStr x)] ->
         let old := Sqlite.chat_settings st in
         let new := Sqlite.chat_settings (Sqlite.final (Sqlite.put_settings_handler req st)) in
         Sqlite.model new = Sqlite.model old
         /\ Sqlite.system_prompt new = Sqlite.system_prompt old
         /\ Sqlite.tts_engine new = Sqlite.tts_engine old
         /\ Sqlite.tts_voice new = x)
  /\ (forall req st,
         let b := js_or (InHouse.body req) (JObj []) in
         let old := InHouse.settings st in
         let out := InHouse.put_settings_handler req st in
         let new := InHouse.settings (InHouse.final out) in
         InHouse.logs (InHouse.final out) = InHouse.logs st
         /\ InHouse.model new
            = (if truthy (opt_get b "model") then opt_get b "model"
               else InHouse.model old)
         /\ InHouse.tts_engine new
            = (if truthy (opt_get b "tts_engine") then opt_get b "tts_engine"
               else InHouse.tts_engine old)
         /\ InHouse.tts_voice new
            = (if truthy (opt_get b "tts_voice") then opt_get b "tts_voice"
               else InHouse.tts_voice old))
  /\ (forall req st x,
         InHouse.body req = JObj [("tts_voice", JStr x)] ->
         let old := InHouse.settings st in
         let new := InHouse.settings (InHouse.final (InHouse.put_settings_handler req st)) in
         InHouse.model new = InHouse.model old
         /\ InHouse.tts_engine new = InHouse.tts_engine old).
Proof.
  split; [|split; [|split; [|split]]].
  - intros req st b old out new replaced. subst replaced out new old.
    unfold Sqlite.put_settings_handler. fold b.
    destruct (forallb Sqlite.bindable (Sqlite.update_params b)).
    + cbn. repeat split; intros; try discriminate;
        try (apply coalesce_nullish; assumption);
        match goal with H : opt_get b _ = _ |- _ => rewrite H; reflexivity end.
    + cbn. repeat split; intros; discriminate.
  - intros reqs st absent new old. subst absent new old. cbv beta.
    repeat split; intros Hall;
      refine (after_updates_frame _ _ _ reqs st Hall);
      intros b r Hn; simpl; apply coalesce_nullish; exact Hn.
  - intros req st x Hb old new. subst old new.
    unfold Sqlite.put_settings_handler. rewrite Hb. cbn.
    repeat split; reflexivity.
  - intros req st b old out new. subst out new old.
    unfold InHouse.put_settings_handler. fold b. cbn.
    destruct (truthy (opt_get b "model")), (truthy (opt_get b "tts_engine")),
      (truthy (opt_get b "tts_voice")); cbn; repeat split; reflexivity.
  - intros req st x Hb old new. subst old new.
    unfold InHouse.put_settings_handler. rewrite Hb. cbn.
    destruct (negb (String.eqb x "")); cbn; split; reflexivity.
Qed.

Lemma settings_update_coalesces_witness :
  let req := Fixtures.S.admin (JObj [("tts_voice", JStr "nova")]) in
  let st := Fixtures.S.with_prompt "Be brief." in
  Sqlite.body req = JObj [("tts_voice", JStr "nova")]
  /\ (let old := Sqlite.chat_settings st in
      let new := Sqlite.chat_settings (Sqlite.final (Sqlite.put_settings_handler req st)) in
      Sqlite.model new = Sqlite.model old
      /\ Sqlite.system_prompt new = Sqlite.system_prompt old
      /\ Sqlite.tts_engine new = Sqlite.tts_engine old
      /\ Sqlite.tts_voice new = "nova").
Proof.
  intros req st.
  assert (H : Sqlite.body req = JObj [("tts_voice", JStr "nova")]) by reflexivity.
  split; [exact H|].
  exact (proj1 (proj2 (proj2 settings_update_coalesces)) req st "nova" H).
Defined.

(** C2, as stated, fails in the SQLite-backed server: an empty string is not
    NULL, so [coalesce] stores it over the previous model. *)
Lemma put_settings_empty_string_is_stored :
  let req := Fixtures.S.admin (JObj [("model", JStr "")]) in
  let out := Sqlite.PUT_super_settings Fixtures.S.env Fixtures.S.jwt_verify
               Fixtures.S.jwt_decode req Fixtures.S.st0 in
  Sqlite.model (Sqlite.chat_settings Fixtures.S.st0) = "gpt-4o-mini"
  /\ Sqlite.model (Sqlite.chat_settings (Sqlite.final out)) = "".
Proof. vm_compute. split; reflexivity. Qed.

End Settings.

(** ** Text to speech *)

Section TextToSpeech.
Import Js.

Lemma rateLimit_unfold limit w now req st next :
  Sqlite.rateLimit limit w now req st next
  = let verdict := Sqlite.allow (Sqlite.bucket st) now (Sqlite.client_ip req) limit w in
    if fst verdict then next (Sqlite.with_bucket st (snd verdict))
    else Sqlite.respond (Sqlite.with_bucket st (snd verdict)) 429
           (Sqlite.error_json "rate_limited").
Proof. reflexivity. Qed.

Lemma requireSuperadmin_unfold env jv jd req st next :
  Sqlite.requireSuperadmin env jv jd req st next
  = if Sqlite.admits env jv jd req then next st
    else Sqlite.respond st 401 (Sqlite.error_json "Superadmin required").
Proof.
  unfold Sqlite.requireSuperadmin, Sqlite.admits.
  destruct (is_string _ _); [reflexivity|]. simpl.
  destruct (Sqlite.bypass env req); reflexivity.
Qed.

(** C3 (as amended).  In the SQLite-backed server, while the engine read
    from the settings is ["browser"], the TTS handler answers 400
    [browser_tts_enabled] without any upstream request; so neither TTS route
    ever reaches the provider, and a route answers 400 unless the rate
    limiter (429) or, on the superadmin route, the guard (401) has already
    answered. *)
Theorem browser_engine_blocks_tts env fetch jwt_verify jwt_decode now req st :
  Sqlite.engine env (Sqlite.chat_settings st) = "browser" ->
  let admitted := fst (Sqlite.allow (Sqlite.bucket st) now (Sqlite.client_ip req) 30 60000) in
  let user := Sqlite.GET_tts env fetch now req st in
  let super := Sqlite.GET_super_tts env fetch jwt_verify jwt_decode now req st in
  Sqlite.tts_handler env fetch req st
  = Sqlite.respond st 400 (Sqlite.error_json "browser_tts_enabled")
  /\ Sqlite.calls user = []
  /\ Sqlite.calls super = []
  /\ Sqlite.status (Sqlite.resp user) = (if admitted then 400 else 429)
  /\ Sqlite.status (Sqlite.resp super)
     = (if admitted
        then if Sqlite.admits env jwt_verify jwt_decode req then 400 else 401
        else 429).
Proof.
  intros Hengine admitted user super.
  assert (Hh : forall st', Sqlite.chat_settings st' = Sqlite.chat_settings st ->
             Sqlite.tts_handler env fetch req st'
             = Sqlite.respond st' 400 (Sqlite.error_json "browser_tts_enabled")).
  { intros st' Hst. unfold Sqlite.tts_handler. rewrite Hst, Hengine. reflexivity. }
  split; [apply Hh; reflexivity|].
  subst user super admitted. unfold Sqlite.GET_tts, Sqlite.GET_super_tts.
  rewrite !rateLimit_unfold. cbv zeta.
  destruct (fst (Sqlite.allow _ _ _ _ _)).
  - rewrite requireSuperadmin_unfold, Hh by reflexivity.
    destruct (Sqlite.admits env jwt_verify jwt_decode req);
      repeat split; reflexivity.
  - repeat split; reflexivity.
Qed.

Lemma browser_engine_blocks_tts_witness :
  Sqlite.engine Fixtures.S.env (Sqlite.chat_settings Fixtures.S.browser_state) = "browser"
  /\ Sqlite.calls (Sqlite.GET_tts Fixtures.S.env Fixtures.S.fetch_hello 0
                     (Fixtures.S.anonymous (JObj [])) Fixtures.S.browser_state) = []
  /\ Sqlite.tts_handler Fixtures.S.env Fixtures.S.fetch_hello
       (Fixtures.S.anonymous (JObj [])) Fixtures.S.browser_state
     = Sqlite.respond Fixtures.S.browser_state 400
         (Sqlite.error_json "browser_tts_enabled").
Proof.
  assert (H : Sqlite.engine Fixtures.S.env
                (Sqlite.chat_settings Fixtures.S.browser_state) = "browser")
    by reflexivity.
  pose proof (browser_engine_blocks_tts Fixtures.S.env Fixtures.S.fetch_hello
                Fixtures.S.jwt_verify Fixtures.S.jwt_decode 0
                (Fixtures.S.anonymous (JObj [])) Fixtures.S.browser_state H)
    as (Hhandler & Huser & _).
  split; [exact H|]. split; [exact Huser|exact Hhandler].
Defined.

(** C3, as stated, fails in the in-house server, whose TTS routes never read
    [settings.tts_engine]: with the engine set to ["browser"] both routes
    post to the speech endpoint and answer 200 with the audio. *)
Lemma inhouse_tts_ignores_engine :
  let super := InHouse.GET_super_tts Fixtures.H.env Fixtures.H.fetch_audio
                 (Fixtures.H.admin (JObj [])) Fixtures.H.browser_state in
  let user := InHouse.GET_tts Fixtures.H.env Fixtures.H.fetch_audio
                (Fixtures.H.anonymous (JObj [])) Fixtures.H.browser_state in
  InHouse.tts_engine (InHouse.settings Fixtures.H.browser_state) = JStr "browser"
  /\ InHouse.calls super = [InHouse.AudioSpeech "Bearer sk-test" (JStr "alloy") "hi"]
  /\ InHouse.status (InHouse.resp super) = 200
  /\ InHouse.calls user = [InHouse.AudioSpeech "Bearer sk-test" (JStr "alloy") "hi"]
  /\ InHouse.status (InHouse.resp user) = 200.
Proof. vm_compute. repeat split; reflexivity. Qed.

End TextToSpeech.

(** ** Chat *)

Section Chat.
Import Js Http.

Lemma trimEnd_keeps c s : is_space c = false -> trimEnd (String c s) <> "".
Proof.
  intros Hc. cbn [trimEnd]. destruct (trimEnd s); [rewrite Hc|]; discriminate.
Qed.

Lemma trimStart_cases s :
  (all_space s = true /\ trimStart s = "")
  \/ (all_space s = false
      /\ exists c s', trimStart s = String c s' /\ is_space c = false).
Proof.
  induction s as [|c s IH]; [left; split; reflexivity|].
  cbn [all_space trimStart]. destruct (is_space c) eqn:Hc.
  - exact IH.
  - right. split; [reflexivity|]. exists c, s. split; [reflexivity|exact Hc].
Qed.

(** [trim] leaves nothing exactly of the strings made of white space. *)
Lemma trim_empty_iff s : trim s = "" <-> all_space s = true.
Proof.
  unfold trim. destruct (trimStart_cases s) as [[Ha Ht]|(Ha & c & s' & Ht & Hc)];
    rewrite Ht, Ha.
  - split; reflexivity.
  - split; [|discriminate]. intros H. exfalso. exact (trimEnd_keeps c s' Hc H).
Qed.

Lemma prefix_messages_spec settings :
  Sqlite.prefix_messages settings
  = if all_space (Sqlite.system_prompt settings) then []
    else [Sqlite.system_message (Sqlite.system_prompt settings)].
Proof.
  unfold Sqlite.prefix_messages.
  destruct (String.eqb_spec (trim (Sqlite.system_prompt settings)) "") as [He|Hne].
  - apply trim_empty_iff in He. rewrite He. reflexivity.
  - destruct (all_space _) eqn:Ha; [|reflexivity].
    apply trim_empty_iff in Ha. contradiction.
Qed.

Section SqliteChat.
Variable env : Sqlite.process_env.
Variable fetch : Sqlite.fetch_request -> fetch_result.
Variable toISOString : Z -> string.


Lemma complete_chat_calls sc who msgs now st ms :
  iterate msgs = Some ms ->
  Sqlite.calls (Sqlite.complete_chat env fetch toISOString sc who msgs now st)
  = [Sqlite.posted env st ms].
Proof.
  intros Hit. unfold Sqlite.complete_chat. rewrite Hit. fold (Sqlite.posted env st ms).
  destruct (fetch (Sqlite.posted env st ms)) as [e|r]; [reflexivity|].
  destruct (up_json r); [|reflexivity].
  destruct (negb (ok r)); [reflexivity|].
  destruct (negb (forallb _ _)); reflexivity.
Qed.

Lemma complete_chat_not_ok sc who msgs now st ms r :
  iterate msgs = Some ms ->
  fetch (Sqlite.posted env st ms) = Resolved r ->
  ok r = false ->
  Sqlite.complete_chat env fetch toISOString sc who msgs now st
  = {| Sqlite.resp :=
         match up_json r with
         | JsonOk data => {| Sqlite.status := up_status r; Sqlite.sent := Sqlite.Json data |}
         | JsonError e =>
             {| Sqlite.status := 500; Sqlite.sent := Sqlite.error_detail "chat_failed" e |}
         end;
       Sqlite.final := st;
       Sqlite.calls := [Sqlite.posted env st ms] |}.
Proof.
  intros Hit Hf Hok. unfold Sqlite.complete_chat. rewrite Hit.
  fold (Sqlite.posted env st ms). rewrite Hf, Hok.
  destruct (up_json r); reflexivity.
Qed.

Lemma complete_chat_ok sc who msgs now st ms r data :
  iterate msgs = Some ms ->
  fetch (Sqlite.posted env st ms) = Resolved r ->
  ok r = true ->
  up_json r = JsonOk data ->
  forallb Sqlite.bindable (Sqlite.insert_params who data) = true ->
  let reply := js_nc (Sqlite.first_choice_content data) (JStr "") in
  let usage := js_or (opt_get data "usage") (JObj []) in
  Sqlite.complete_chat env fetch toISOString sc who msgs now st
  = {| Sqlite.resp :=
         {| Sqlite.status := 200;
            Sqlite.sent := Sqlite.Json (JObj [("reply", reply); ("usage", usage);
                                              ("created_at", JStr (toISOString now))]) |};
       Sqlite.final :=
         Sqlite.with_logs st
           (Sqlite.insert_log (Sqlite.chat_logs st) now who sc
              (stringify_array (Sqlite.prefix_messages (Sqlite.chat_settings st) ++ ms))
              reply
              (js_or (opt_get usage "prompt_tokens") JNull)
              (js_or (opt_get usage "completion_tokens") JNull));
       Sqlite.calls := [Sqlite.posted env st ms] |}.
Proof.
  intros Hit Hf Hok Hj Hb reply usage. unfold Sqlite.complete_chat. rewrite Hit.
  fold (Sqlite.posted env st ms). rewrite Hf, Hj, Hok, Hb. reflexivity.
Qed.

(** The driver refuses one of the values of the insert: the [catch] answers,
    after the provider has been called, and nothing is stored. *)
Lemma complete_chat_unbound sc who msgs now st ms r data :
  iterate msgs = Some ms ->
  fetch (Sqlite.posted env st ms) = Resolved r ->
  ok r = true ->
  up_json r = JsonOk data ->
  forallb Sqlite.bindable (Sqlite.insert_params who data) = false ->
  Sqlite.complete_chat env fetch toISOString sc who msgs now st
  = Sqlite.chat_failed st Sqlite.bind_error [Sqlite.posted env st ms].
Proof.
  intros Hit Hf Hok Hj Hb. unfold Sqlite.complete_chat. rewrite Hit.
  fold (Sqlite.posted env st ms). rewrite Hf, Hj, Hok, Hb. reflexivity.
Qed.

Lemma not_ok_not_200 r : ok r = false -> up_status r <> 200.
Proof.
  unfold ok. intros H Hs. rewrite Hs in H. discriminate.
Qed.

(** A chat handler answers 200 only along the path that logs. *)
Lemma complete_chat_200 sc who msgs now st :
  Sqlite.status (Sqlite.resp (Sqlite.complete_chat env fetch toISOString sc who msgs now st)) = 200 ->
  exists ms r data,
    iterate msgs = Some ms /\ fetch (Sqlite.posted env st ms) = Resolved r
    /\ ok r = true /\ up_json r = JsonOk data
    /\ forallb Sqlite.bindable (Sqlite.insert_params who data) = true.
Proof.
  unfold Sqlite.complete_chat. destruct (iterate msgs) as [ms|] eqn:Hit;
    [|discriminate].
  fold (Sqlite.posted env st ms). destruct (fetch (Sqlite.posted env st ms)) as [e|r] eqn:Hf;
    [discriminate|].
  destruct (up_json r) as [data|e] eqn:Hj; [|discriminate].
  destruct (ok r) eqn:Hok; cbn [negb].
  - destruct (forallb Sqlite.bindable (Sqlite.insert_params who data)) eqn:Hb;
      cbn [negb]; [|discriminate].
    intros _. exists ms, r, data. auto.
  - intros Hs. exfalso. exact (not_ok_not_200 r Hok Hs).
Qed.

(** The user handler, by whether the template literal [`user:${user_id}`]
    can be evaluated. *)
Lemma user_send_handler_converts now req st :
  Sqlite.user_id_converts req = true ->
  exists who,
    Sqlite.user_send_handler env fetch toISOString now req st
    = Sqlite.complete_chat env fetch toISOString "user" (JStr who)
        (Sqlite.request_messages req) now st.
Proof.
  unfold Sqlite.user_id_converts, Sqlite.user_send_handler. intros H.
  destruct (truthy _); simpl in *; [rewrite H|]; eexists; reflexivity.
Qed.

Lemma user_send_handler_throws now req st :
  Sqlite.user_id_converts req = false ->
  Sqlite.user_send_handler env fetch toISOString now req st
  = Sqlite.chat_failed st Sqlite.conversion_error [].
Proof.
  unfold Sqlite.user_id_converts, Sqlite.user_send_handler. intros H.
  destruct (truthy _); simpl in *; [rewrite H; reflexivity|discriminate].
Qed.

(** Either chat handler, on a request whose actor can be computed, runs the
    shared text. *)
Lemma chat_handler_shared now req st handler :
  handler = Sqlite.super_chat_handler env fetch toISOString
  \/ (handler = Sqlite.user_send_handler env fetch toISOString
      /\ Sqlite.user_id_converts req = true) ->
  exists sc who,
    handler now req st
    = Sqlite.complete_chat env fetch toISOString sc who
        (Sqlite.request_messages req) now st.
Proof.
  intros [-> | [-> Hc]].
  - eexists _, _. reflexivity.
  - destruct (user_send_handler_converts now req st Hc) as [who Hw].
    exists "user", (JStr who). exact Hw.
Qed.

End SqliteChat.


(** C6 (as amended).  The sequence a chat handler posts upstream starts with
    a system message carrying the configured prompt, followed by the
    request's messages in order, when the prompt has a character that is not
    white space; when the prompt is empty or white space only, there is no
    system message and the sequence is the request's messages.  The user
    handler posts so when it gets to the request, that is, unless the
    [user_id] of the body is an object that cannot be converted to a string:
    then it posts nothing. *)
Theorem system_prompt_prefix env fetch toISOString now req st handler ms :
  handler = Sqlite.super_chat_handler env fetch toISOString
  \/ (handler = Sqlite.user_send_handler env fetch toISOString
      /\ Sqlite.user_id_converts req = true) ->
  iterate (Sqlite.request_messages req) = Some ms ->
  let prompt := Sqlite.system_prompt (Sqlite.chat_settings st) in
  let out := handler now req st in
  (all_space prompt = false ->
   Sqlite.calls out
   = [Sqlite.chat_request env (Sqlite.chat_settings st)
        (JObj [("role", JStr "system"); ("content", JStr prompt)] :: ms)])
  /\ (all_space prompt = true ->
      Sqlite.calls out = [Sqlite.chat_request env (Sqlite.chat_settings st) ms])
  /\ (Sqlite.user_id_converts req = false ->
      Sqlite.calls (Sqlite.user_send_handler env fetch toISOString now req st) = []).
Proof.
  intros Hh Hit prompt out.
  assert (Hc : Sqlite.calls out = [Sqlite.posted env st ms]).
  { subst out. destruct (chat_handler_shared env fetch toISOString now req st handler Hh)
      as (sc & who & ->).
    apply complete_chat_calls; exact Hit. }
  rewrite Hc. unfold Sqlite.posted. rewrite prefix_messages_spec. fold prompt.
  split; [|split].
  - intros ->; reflexivity.
  - intros ->; reflexivity.
  - intros Hno. rewrite (user_send_handler_throws env fetch toISOString now req st Hno).
    reflexivity.
Qed.

Lemma system_prompt_prefix_witness :
  let st := Fixtures.S.with_prompt "Be brief." in
  let req := Fixtures.S.anonymous Fixtures.S.chat_body in
  Sqlite.user_id_converts req = true
  /\ iterate (Sqlite.request_messages req) = Some [Fixtures.user_hi]
  /\ all_space "Be brief." = false
  /\ Sqlite.calls (Sqlite.user_send_handler Fixtures.S.env Fixtures.S.fetch_hello
                     Fixtures.iso 0 req st)
     = [Sqlite.chat_request Fixtures.S.env (Sqlite.chat_settings st)
          [JObj [("role", JStr "system"); ("content", JStr "Be brief.")];
           Fixtures.user_hi]].
Proof.
  intros st req.
  assert (H1 : iterate (Sqlite.request_messages req) = Some [Fixtures.user_hi])
    by reflexivity.
  assert (H2 : all_space "Be brief." = false) by reflexivity.
  assert (H0 : Sqlite.user_id_converts req = true) by reflexivity.
  split; [exact H0|]. split; [exact H1|]. split; [exact H2|].
  exact (proj1 (system_prompt_prefix Fixtures.S.env Fixtures.S.fetch_hello
                  Fixtures.iso 0 req st _ [Fixtures.user_hi]
                  (or_intror (conj eq_refl H0)) H1) H2).
Defined.

(** C6, as stated, fails for a prompt that is not empty but holds white
    space only: [trim()] makes it falsy and no system message is sent. *)
Lemma whitespace_prompt_is_omitted :
  let st := Fixtures.S.with_prompt "  " in
  let out := Sqlite.POST_chat_user_send Fixtures.S.env Fixtures.S.fetch_hello
               Fixtures.S.jwt_verify Fixtures.S.jwt_decode Fixtures.iso 0
               (Fixtures.S.anonymous Fixtures.S.chat_body) st in
  Sqlite.system_prompt (Sqlite.chat_settings st) <> ""
  /\ Sqlite.calls out
     = [Sqlite.ChatCompletions "Bearer sk-test" "gpt-4o-mini" [Fixtures.user_hi]].
Proof. split; [discriminate|vm_compute; reflexivity]. Qed.

(** C4 (as amended).  SQLite-backed server: when the provider answers a
    chat request with a non-success status, the handler leaves the state,
    and so the log, as it was; it forwards the status and the parsed body
    when the body is JSON, and answers 500 [chat_failed] when the body cannot
    be parsed.  (The user handler does not get to the provider when the
    [user_id] of the body is an object that cannot be converted to a string:
    it answers 500 [chat_failed] and leaves the state as it was.)  In-house
    server: when the SDK call rejects, the handler answers 500 [chat_failed]
    and leaves the state as it was. *)
Theorem upstream_failure_forwarded :
  (forall env fetch toISOString now req st handler ms r,
      handler = Sqlite.super_chat_handler env fetch toISOString
      \/ (handler = Sqlite.user_send_handler env fetch toISOString
          /\ Sqlite.user_id_converts req = true) ->
      iterate (Sqlite.request_messages req) = Some ms ->
      fetch (Sqlite.posted env st ms) = Resolved r ->
      ok r = false ->
      let out := handler now req st in
      Sqlite.final out = st
      /\ Sqlite.chat_logs (Sqlite.final out) = Sqlite.chat_logs st
      /\ Sqlite.calls out = [Sqlite.posted env st ms]
      /\ (forall data, up_json r = JsonOk data ->
          Sqlite.resp out
          = {| Sqlite.status := up_status r; Sqlite.sent := Sqlite.Json data |})
      /\ (forall e, up_json r = JsonError e ->
          Sqlite.resp out
          = {| Sqlite.status := 500;
               Sqlite.sent := Sqlite.error_detail "chat_failed" e |}))
  /\ (forall env fetch toISOString now req st,
         Sqlite.user_id_converts req = false ->
         let out := Sqlite.user_send_handler env fetch toISOString now req st in
         Sqlite.final out = st
         /\ Sqlite.calls out = []
         /\ Sqlite.resp out
            = {| Sqlite.status := 500;
                 Sqlite.sent := Sqlite.error_detail "chat_failed"
                                  Sqlite.conversion_error |})
  /\ (forall create toISOString now req st handler e,
         handler = InHouse.super_chat_handler create toISOString
         \/ handler = InHouse.user_send_handler create toISOString ->
         create (InHouse.chat_model_of st) (InHouse.request_messages req)
         = InHouse.CreateRejected e ->
         let out := handler now req st in
         InHouse.final out = st
         /\ InHouse.resp out
            = {| InHouse.status := 500;
                 InHouse.sent := InHouse.error_detail "chat_failed" e |}).
Proof.
  split; [|split].
  - intros env fetch toISOString now req st handler ms r Hh Hit Hf Hok out.
    subst out.
    destruct (chat_handler_shared env fetch toISOString now req st handler Hh)
      as (sc & who & ->).
    rewrite (complete_chat_not_ok env fetch toISOString sc who _ now st ms r Hit Hf Hok).
    cbn. repeat split; intros ? ->; reflexivity.
  - intros env fetch toISOString now req st Hno out. subst out.
    rewrite (user_send_handler_throws env fetch toISOString now req st Hno).
    repeat split; reflexivity.
  - intros create toISOString now req st handler e Hh Hc out.
    assert (Hout : exists sc who,
               out = InHouse.chat create toISOString sc who
                       (InHouse.request_messages req) now st).
    { subst out. destruct Hh as [-> | ->]; eexists _, _; reflexivity. }
    destruct Hout as (sc & who & ->).
    unfold InHouse.chat, InHouse.callChat. cbn [fst snd]. rewrite Hc.
    split; reflexivity.
Qed.

Lemma upstream_failure_forwarded_witness :
  let req := Fixtures.S.admin Fixtures.S.chat_body in
  let r := {| up_status := 401; up_text := "(error)";
              up_json := JsonOk Fixtures.invalid_key |} in
  let out := Sqlite.super_chat_handler Fixtures.S.env Fixtures.S.fetch_unauthorized
               Fixtures.iso 0 req Fixtures.S.st0 in
  iterate (Sqlite.request_messages req) = Some [Fixtures.user_hi]
  /\ Fixtures.S.fetch_unauthorized
       (Sqlite.posted Fixtures.S.env Fixtures.S.st0 [Fixtures.user_hi]) = Resolved r
  /\ ok r = false
  /\ Sqlite.final out = Fixtures.S.st0
  /\ Sqlite.resp out
     = {| Sqlite.status := 401; Sqlite.sent := Sqlite.Json Fixtures.invalid_key |}.
Proof.
  intros req r out.
  assert (H1 : iterate (Sqlite.request_messages req) = Some [Fixtures.user_hi])
    by reflexivity.
  assert (H2 : Fixtures.S.fetch_unauthorized
                 (Sqlite.posted Fixtures.S.env Fixtures.S.st0 [Fixtures.user_hi])
               = Resolved r) by reflexivity.
  assert (H3 : ok r = false) by reflexivity.
  pose proof (proj1 upstream_failure_forwarded Fixtures.S.env
                Fixtures.S.fetch_unauthorized
                Fixtures.iso 0 req Fixtures.S.st0 _ [Fixtures.user_hi] r
                (or_introl eq_refl) H1 H2 H3) as (Hfinal & _ & _ & Hjson & _).
  split; [exact H1|]. split; [exact H2|]. split; [exact H3|].
  split; [exact Hfinal|]. exact (Hjson Fixtures.invalid_key eq_refl).
Defined.

(** C4, as stated, fails when the failing response carries no JSON: a 502
    with an HTML page makes [r.json()] reject, and the caller gets 500
    [chat_failed] instead of the 502 and its body. *)
Lemma bad_gateway_is_not_forwarded :
  let out := Sqlite.POST_super_chat Fixtures.S.env Fixtures.S.fetch_bad_gateway
               Fixtures.S.jwt_verify Fixtures.S.jwt_decode Fixtures.iso 0
               (Fixtures.S.admin Fixtures.S.chat_body) Fixtures.S.st0 in
  Fixtures.S.fetch_bad_gateway
    (Sqlite.posted Fixtures.S.env Fixtures.S.st0 [Fixtures.user_hi])
  = Resolved {| up_status := 502; up_text := "<html>Bad Gateway</html>";
                up_json := JsonError "FetchError: invalid json response body" |}
  /\ Sqlite.calls out = [Sqlite.posted Fixtures.S.env Fixtures.S.st0 [Fixtures.user_hi]]
  /\ Sqlite.resp out
     = {| Sqlite.status := 500;
          Sqlite.sent := Sqlite.error_detail "chat_failed"
                           "FetchError: invalid json response body" |}.
Proof. vm_compute. repeat split; reflexivity. Qed.


Lemma nullish_falsy v : nullish v = true -> truthy v = false.
Proof. destruct v; simpl; intros H; try discriminate; reflexivity. Qed.

Lemma complete_chat_logged_once env fetch toISOString sc who msgs now st0 st :
  Sqlite.chat_logs st = Sqlite.chat_logs st0 ->
  Sqlite.status (Sqlite.resp (Sqlite.complete_chat env fetch toISOString sc who msgs now st)) = 200 ->
  Sqlite.logged_once sc (toISOString now) st0
    (Sqlite.complete_chat env fetch toISOString sc who msgs now st).
Proof.
  intros Hlogs H200.
  destruct (complete_chat_200 env fetch toISOString sc who msgs now st H200)
    as (ms & r & data & Hit & Hf & Hok & Hj & Hb).
  rewrite (complete_chat_ok env fetch toISOString sc who msgs now st ms r data
             Hit Hf Hok Hj Hb).
  unfold Sqlite.logged_once, Sqlite.posted, Sqlite.chat_request, Sqlite.insert_log.
  cbn. rewrite Hlogs. do 6 eexists. repeat split; reflexivity.
Qed.

Lemma inhouse_chat_unshifted create toISOString sc who now req st :
  InHouse.status (InHouse.resp (InHouse.chat create toISOString sc who
                                  (InHouse.request_messages req) now st)) = 200 ->
  InHouse.unshifted_once sc req st
    (InHouse.chat create toISOString sc who (InHouse.request_messages req) now st).
Proof.
  unfold InHouse.chat, InHouse.callChat. cbn [fst snd].
  destruct (create _ _) as [e|completion]; cbn; [discriminate|].
  intros _. unfold InHouse.unshifted_once. cbn. do 3 eexists. repeat split; reflexivity.
Qed.

(** C5.  A chat route that answers 200 has posted one upstream request and
    added exactly one log entry, whose scope is the tier of the route, whose
    reply is the reply in the response, and whose messages are the
    serialization of the sequence sent upstream. *)
Theorem successful_chat_logs_once :
  (forall env fetch jwt_verify jwt_decode toISOString now req st,
      let out := Sqlite.POST_super_chat env fetch jwt_verify jwt_decode toISOString
                   now req st in
      Sqlite.status (Sqlite.resp out) = 200 ->
      Sqlite.logged_once "super" (toISOString now) st out)
  /\ (forall env fetch jwt_verify jwt_decode toISOString now req st,
         let out := Sqlite.POST_chat_user_send env fetch jwt_verify jwt_decode
                      toISOString now req st in
         Sqlite.status (Sqlite.resp out) = 200 ->
         Sqlite.logged_once "user" (toISOString now) st out)
  /\ (forall env create toISOString now req st,
         let out := InHouse.POST_super_chat env create toISOString now req st in
         InHouse.status (InHouse.resp out) = 200 ->
         InHouse.unshifted_once "super" req st out)
  /\ (forall create toISOString now req st,
         let out := InHouse.POST_chat_user_send create toISOString now req st in
         InHouse.status (InHouse.resp out) = 200 ->
         InHouse.unshifted_once "user" req st out).
Proof.
  split; [|split; [|split]].
  - intros env fetch jv jd iso now req st out. subst out.
    unfold Sqlite.POST_super_chat. rewrite rateLimit_unfold. cbv zeta.
    destruct (fst (Sqlite.allow _ _ _ _ _)); [|discriminate].
    rewrite requireSuperadmin_unfold.
    destruct (Sqlite.admits env jv jd req); [|discriminate].
    apply complete_chat_logged_once. reflexivity.
  - intros env fetch jv jd iso now req st out. subst out.
    unfold Sqlite.POST_chat_user_send. rewrite rateLimit_unfold. cbv zeta.
    destruct (fst (Sqlite.allow _ _ _ _ _)); [|discriminate].
    unfold Sqlite.requireUser.
    assert (Hu : forall s, Sqlite.chat_logs s = Sqlite.chat_logs st ->
              Sqlite.status (Sqlite.resp (Sqlite.user_send_handler env fetch iso now req s))
              = 200 ->
              Sqlite.logged_once "user" (iso now) st
                (Sqlite.user_send_handler env fetch iso now req s)).
    { intros s Hs. destruct (Sqlite.user_id_converts req) eqn:Hc.
      - destruct (user_send_handler_converts env fetch iso now req s Hc) as [who ->].
        apply complete_chat_logged_once. exact Hs.
      - rewrite (user_send_handler_throws env fetch iso now req s Hc). discriminate. }
    destruct (truthy _); apply Hu; reflexivity.
  - intros env create iso now req st out. subst out.
    unfold InHouse.POST_super_chat.
    rewrite requireAdmin_unfold.
    destruct (InHouse.admits env req); [|discriminate].
    apply inhouse_chat_unshifted.
  - intros create iso now req st out. subst out.
    apply inhouse_chat_unshifted.
Qed.


Lemma successful_chat_logs_once_witness :
  let out := Sqlite.POST_chat_user_send Fixtures.S.env Fixtures.S.fetch_hello
               Fixtures.S.jwt_verify Fixtures.S.jwt_decode Fixtures.iso 0
               (Fixtures.S.anonymous Fixtures.S.chat_body) Fixtures.S.st0 in
  Sqlite.status (Sqlite.resp out) = 200
  /\ Sqlite.logged_once "user" (Fixtures.iso 0) Fixtures.S.st0 out.
Proof.
  intros out.
  assert (H : Sqlite.status (Sqlite.resp out) = 200) by reflexivity.
  split; [exact H|].
  exact (proj1 (proj2 successful_chat_logs_once) Fixtures.S.env Fixtures.S.fetch_hello
           Fixtures.S.jwt_verify Fixtures.S.jwt_decode Fixtures.iso 0
           (Fixtures.S.anonymous Fixtures.S.chat_body) Fixtures.S.st0 H).
Defined.

(** A body that lacks the content, as [lacks_message_content] reads it off
    the body, makes the optional chain yield [undefined] or [null]. *)
Lemma lacks_content_nullish data :
  lacks_message_content data = true ->
  nullish (Sqlite.first_choice_content data) = true.
Proof.
  unfold Sqlite.first_choice_content.
  destruct data as [| |b|n|s|l|fs]; try reflexivity.
  cbn [lacks_message_content opt_get].
  destruct (field "choices" fs) as [| |b|n|s|[|c l]|gs]; try reflexivity;
    try discriminate.
  cbn [opt_first]. destruct c as [| |b|n|s|l'|choice]; try reflexivity.
  cbn [opt_get]. destruct (field "message" choice) as [| |b|n|s|l'|message];
    try reflexivity.
  cbn [opt_get]. intros H. exact H.
Qed.

Lemma insert_params_refused who data :
  Sqlite.bindable who = false
  \/ forallb Sqlite.bindable (Sqlite.token_counters data) = false ->
  forallb Sqlite.bindable (Sqlite.insert_params who data) = false.
Proof.
  unfold Sqlite.insert_params. cbn [forallb]. intros [-> | ->].
  - reflexivity.
  - rewrite !andb_false_r. reflexivity.
Qed.

(** C10 (as amended).  SQLite-backed server: when the provider answers a
    chat request with a success status and a body without
    [choices[0].message.content], and the driver binds the values of the
    insert (the [admin_user] of the superadmin request and the two token
    counters are strings, numbers or [null]; no boolean, array or object),
    the handler answers 200 with the empty string as reply and adds a log
    entry carrying that empty reply; when the driver refuses one of them the
    handler answers 500 [chat_failed] and adds nothing.  In-house server:
    with such a completion the handler answers 200 with the empty string as
    reply and adds a log entry carrying it. *)
Theorem missing_content_gives_empty_reply :
  (forall env fetch toISOString now req st handler ms r data,
      (handler = Sqlite.super_chat_handler env fetch toISOString
       /\ Sqlite.bindable (Sqlite.admin_user_of req) = true)
      \/ (handler = Sqlite.user_send_handler env fetch toISOString
          /\ Sqlite.user_id_converts req = true) ->
      iterate (Sqlite.request_messages req) = Some ms ->
      fetch (Sqlite.posted env st ms) = Resolved r ->
      ok r = true ->
      up_json r = JsonOk data ->
      lacks_message_content data = true ->
      forallb Sqlite.bindable (Sqlite.token_counters data) = true ->
      let out := handler now req st in
      Sqlite.resp out
      = {| Sqlite.status := 200;
           Sqlite.sent :=
             Sqlite.Json (JObj [("reply", JStr "");
                                ("usage", js_or (opt_get data "usage") (JObj []));
                                ("created_at", JStr (toISOString now))]) |}
      /\ exists row,
           Sqlite.chat_logs (Sqlite.final out) = Sqlite.chat_logs st ++ [row]
           /\ Sqlite.reply row = JStr "")
  /\ (forall env fetch toISOString now req st handler ms r data,
         (handler = Sqlite.super_chat_handler env fetch toISOString
          /\ (Sqlite.bindable (Sqlite.admin_user_of req) = false
              \/ forallb Sqlite.bindable (Sqlite.token_counters data) = false))
         \/ (handler = Sqlite.user_send_handler env fetch toISOString
             /\ Sqlite.user_id_converts req = true
             /\ forallb Sqlite.bindable (Sqlite.token_counters data) = false) ->
         iterate (Sqlite.request_messages req) = Some ms ->
         fetch (Sqlite.posted env st ms) = Resolved r ->
         ok r = true ->
         up_json r = JsonOk data ->
         let out := handler now req st in
         Sqlite.resp out
         = {| Sqlite.status := 500;
              Sqlite.sent := Sqlite.error_detail "chat_failed" Sqlite.bind_error |}
         /\ Sqlite.final out = st)
  /\ (forall create toISOString now req st handler completion,
         handler = InHouse.super_chat_handler create toISOString
         \/ handler = InHouse.user_send_handler create toISOString ->
         create (InHouse.chat_model_of st) (InHouse.request_messages req)
         = InHouse.CreateResolved completion ->
         lacks_message_content (JObj completion) = true ->
         let out := handler now req st in
         InHouse.resp out
         = {| InHouse.status := 200;
              InHouse.sent := InHouse.Json (JObj [("reply", JStr "")]) |}
         /\ exists entry,
              InHouse.logs (InHouse.final out) = entry :: InHouse.logs st
              /\ InHouse.reply entry = JStr "").
Proof.
  split; [|split].
  - intros env fetch iso now req st handler ms r data Hh Hit Hf Hok Hj Hlack Htok out.
    apply lacks_content_nullish in Hlack.
    assert (Hout : exists sc who,
               out = Sqlite.complete_chat env fetch iso sc who
                       (Sqlite.request_messages req) now st
               /\ Sqlite.bindable who = true).
    { subst out. destruct Hh as [[-> Hb] | [-> Hc]].
      - exists "super", (Sqlite.admin_user_of req). split; [reflexivity|exact Hb].
      - destruct (user_send_handler_converts env fetch iso now req st Hc) as [who Hw].
        exists "user", (JStr who). split; [exact Hw|reflexivity]. }
    destruct Hout as (sc & who & -> & Hwho).
    assert (Hb : forallb Sqlite.bindable (Sqlite.insert_params who data) = true).
    { unfold Sqlite.insert_params, Sqlite.reply_of, js_nc.
      rewrite Hlack. cbn [forallb]. rewrite Hwho. exact Htok. }
    rewrite (complete_chat_ok env fetch iso sc who _ now st ms r data Hit Hf Hok Hj Hb).
    unfold js_nc. rewrite Hlack. cbn. split; [reflexivity|].
    unfold Sqlite.insert_log. eexists. split; reflexivity.
  - intros env fetch iso now req st handler ms r data Hh Hit Hf Hok Hj out.
    assert (Hout : exists sc who,
               out = Sqlite.complete_chat env fetch iso sc who
                       (Sqlite.request_messages req) now st
               /\ forallb Sqlite.bindable (Sqlite.insert_params who data) = false).
    { subst out. destruct Hh as [[-> Hb] | (-> & Hc & Hb)].
      - exists "super", (Sqlite.admin_user_of req). split; [reflexivity|].
        apply insert_params_refused. exact Hb.
      - destruct (user_send_handler_converts env fetch iso now req st Hc) as [who Hw].
        exists "user", (JStr who). split; [exact Hw|].
        apply insert_params_refused. right. exact Hb. }
    destruct Hout as (sc & who & -> & Hb).
    rewrite (complete_chat_unbound env fetch iso sc who _ now st ms r data
               Hit Hf Hok Hj Hb).
    split; reflexivity.
  - intros create iso now req st handler completion Hh Hc Hlack out.
    assert (Hnull : nullish (InHouse.first_choice_content completion) = true).
    { exact (lacks_content_nullish (JObj completion) Hlack). }
    assert (Hout : exists sc who,
               out = InHouse.chat create iso sc who (InHouse.request_messages req) now st).
    { subst out. destruct Hh as [-> | ->]; eexists _, _; reflexivity. }
    destruct Hout as (sc & who & ->).
    unfold InHouse.chat, InHouse.callChat. cbn [fst snd]. rewrite Hc.
    unfold js_or. rewrite (nullish_falsy _ Hnull). cbn. split; [reflexivity|].
    eexists. split; reflexivity.
Qed.

Lemma missing_content_gives_empty_reply_witness :
  let req := Fixtures.S.admin Fixtures.S.chat_body in
  let r := {| up_status := 200; up_text := "{}"; up_json := JsonOk (JObj []) |} in
  let out := Sqlite.super_chat_handler Fixtures.S.env Fixtures.S.fetch_empty
               Fixtures.iso 0 req Fixtures.S.st0 in
  Sqlite.bindable (Sqlite.admin_user_of req) = true
  /\ iterate (Sqlite.request_messages req) = Some [Fixtures.user_hi]
  /\ Fixtures.S.fetch_empty
       (Sqlite.posted Fixtures.S.env Fixtures.S.st0 [Fixtures.user_hi]) = Resolved r
  /\ ok r = true
  /\ lacks_message_content (JObj []) = true
  /\ forallb Sqlite.bindable (Sqlite.token_counters (JObj [])) = true
  /\ Sqlite.resp out
     = {| Sqlite.status := 200;
          Sqlite.sent :=
            Sqlite.Json (JObj [("reply", JStr "");
                               ("usage", js_or (opt_get (JObj []) "usage") (JObj []));
                               ("created_at", JStr (Fixtures.iso 0))]) |}.
Proof.
  intros req r out.
  assert (H0 : Sqlite.bindable (Sqlite.admin_user_of req) = true) by reflexivity.
  assert (H1 : iterate (Sqlite.request_messages req) = Some [Fixtures.user_hi])
    by reflexivity.
  assert (H2 : Fixtures.S.fetch_empty
                 (Sqlite.posted Fixtures.S.env Fixtures.S.st0 [Fixtures.user_hi])
               = Resolved r) by reflexivity.
  assert (H3 : ok r = true) by reflexivity.
  assert (H4 : lacks_message_content (JObj []) = true) by reflexivity.
  assert (H5 : forallb Sqlite.bindable (Sqlite.token_counters (JObj [])) = true)
    by reflexivity.
  repeat (split; [assumption|]).
  exact (proj1 (proj1 missing_content_gives_empty_reply Fixtures.S.env
                  Fixtures.S.fetch_empty Fixtures.iso 0 req Fixtures.S.st0 _
                  [Fixtures.user_hi] r (JObj [])
                  (or_introl (conj eq_refl H0)) H1 H2 H3 eq_refl H4 H5)).
Defined.

(** C10, as stated, fails in the SQLite-backed server when the insert
    cannot bind the actor: the superadmin request names its [admin_user] by
    an object, the provider answers 200 with a body without content, and the
    handler answers 500 [chat_failed] after the provider's answer, with no
    entry added. *)
Lemma unbound_actor_fails_the_chat :
  let req := Fixtures.S.admin
               (JObj [("messages", JArr [Fixtures.user_hi]);
                      ("admin_user", JObj [("name", JStr "root")])]) in
  let out := Sqlite.POST_super_chat Fixtures.S.env Fixtures.S.fetch_empty
               Fixtures.S.jwt_verify Fixtures.S.jwt_decode Fixtures.iso 0
               req Fixtures.S.st0 in
  Fixtures.S.fetch_empty
    (Sqlite.posted Fixtures.S.env Fixtures.S.st0 [Fixtures.user_hi])
  = Resolved {| up_status := 200; up_text := "{}"; up_json := JsonOk (JObj []) |}
  /\ lacks_message_content (JObj []) = true
  /\ Sqlite.calls out = [Sqlite.posted Fixtures.S.env Fixtures.S.st0 [Fixtures.user_hi]]
  /\ Sqlite.resp out
     = {| Sqlite.status := 500;
          Sqlite.sent := Sqlite.error_detail "chat_failed" Sqlite.bind_error |}
  /\ Sqlite.chat_logs (Sqlite.final out) = Sqlite.chat_logs Fixtures.S.st0.
Proof. vm_compute. repeat split; reflexivity. Qed.

End Chat.

(** ** Logs *)

Section Logs.
Import Js.

(** *** The [chat_logs] table *)










Lemma put_settings_logs req st :
  Sqlite.chat_logs (Sqlite.final (Sqlite.put_settings_handler req st))
  = Sqlite.chat_logs st.
Proof.
  unfold Sqlite.put_settings_handler. destruct (forallb _ _); reflexivity.
Qed.

Lemma tts_handler_final env fetch req st :
  Sqlite.chat_logs (Sqlite.final (Sqlite.tts_handler env fetch req st))
  = Sqlite.chat_logs st.
Proof.
  unfold Sqlite.tts_handler. destruct (String.eqb _ "browser"); [reflexivity|].
  destruct (fetch _) as [e|r]; [reflexivity|].
  destruct (negb (Http.ok r)); reflexivity.
Qed.



(** *** [LIKE] *)






(** *** The in-house log filter *)







End Logs.

(* ===================================================================== *)
(** * Further properties of the SQLite-backed server *)
(* ===================================================================== *)

(** ** The limiter inside a window and across keys *)

Section Windows.
Import Js Http Sqlite.

(** X1.  While the calls on a key stay inside its current window, the
    limiter admits the first [limit - count] of them (none when the count
    has already reached the limit) and refuses every later one: a refusal is
    never followed by an admission before the window ends. *)
Theorem window_admits_up_to_limit (m : gmap string RateBucket) ip limit w ts b :
  m !! ip = Some b ->
  Forall (fun u => u <= reset b) ts ->
  let k := Z.to_nat (Z.min (Z.of_nat (length ts)) (limit - count b)) in
  fst (allow_all m ip limit w ts)
  = replicate k true ++ replicate (length ts - k) false.
Proof.
  intros Hb Hin k. destruct (allow_all_live limit w ip ts m b Hb Hin) as [-> _].
  apply list_eq. intros i. rewrite list_lookup_fmap.
  destruct (decide (i < length ts)%nat) as [Hi|Hi].
  - rewrite lookup_seq_lt by lia. cbn [fmap option_fmap option_map].
    destruct (decide (i < k)%nat) as [Hk|Hk].
    + rewrite lookup_app_l by (rewrite length_replicate; lia).
      rewrite lookup_replicate_2 by lia. f_equal. apply Z.leb_le. lia.
    + rewrite lookup_app_r by (rewrite length_replicate; lia).
      rewrite length_replicate, lookup_replicate_2 by lia.
      f_equal. apply Z.leb_gt. lia.
  - rewrite lookup_seq_ge by lia. symmetry. apply lookup_ge_None.
    rewrite length_app, !length_replicate. lia.
Qed.

Lemma window_admits_up_to_limit_witness :
  let b := {| count := 58; reset := 60000 |} in
  let m : gmap string RateBucket := {[ "10.0.0.7" := b ]} in
  m !! "10.0.0.7" = Some b
  /\ Forall (fun u => u <= reset b) [100; 200; 300; 400]
  /\ fst (allow_all m "10.0.0.7" 60 60000 [100; 200; 300; 400])
     = [true; true; false; false].
Proof.
  intros b m.
  assert (H1 : m !! "10.0.0.7" = Some b) by reflexivity.
  assert (H2 : Forall (fun u => u <= reset b) [100; 200; 300; 400])
    by (repeat constructor; simpl; lia).
  split; [exact H1|]. split; [exact H2|].
  exact (window_admits_up_to_limit m "10.0.0.7" 60 60000 [100; 200; 300; 400] b H1 H2).
Defined.

Lemma allow_depends_on_key (m m' : gmap string RateBucket) now ip limit w :
  m' !! ip = m !! ip ->
  fst (allow m' now ip limit w) = fst (allow m now ip limit w)
  /\ snd (allow m' now ip limit w) !! ip = snd (allow m now ip limit w) !! ip.
Proof.
  intros Heq. rewrite !allow_unfold. cbn [fst snd]. unfold current.
  rewrite Heq, !lookup_insert_eq. split; reflexivity.
Qed.

Lemma after_calls_other (m : gmap string RateBucket) cs ip :
  Forall (fun c => key c <> ip) cs ->
  fold_left after_call cs m !! ip = m !! ip.
Proof.
  revert m. induction cs as [|c cs IH]; intros m Hall; [reflexivity|].
  apply Forall_cons in Hall as [Hc Hall]. cbn [fold_left].
  rewrite (IH _ Hall). apply after_call_other. exact Hc.
Qed.

(** X2.  Calls made under other keys, however many and with whatever limits
    and windows, change neither the bucket of a key nor the verdict its next
    call receives. *)
Theorem other_keys_do_not_interfere (m : gmap string RateBucket) cs ip now limit w :
  Forall (fun c => key c <> ip) cs ->
  let m' := fold_left after_call cs m in
  m' !! ip = m !! ip
  /\ fst (allow m' now ip limit w) = fst (allow m now ip limit w)
  /\ snd (allow m' now ip limit w) !! ip = snd (allow m now ip limit w) !! ip.
Proof.
  intros Hall m'. pose proof (after_calls_other m cs ip Hall) as Heq.
  split; [exact Heq|]. apply allow_depends_on_key. exact Heq.
Qed.

Lemma other_keys_do_not_interfere_witness :
  let flood := [ {| at_time := 1; key := "6.6.6.6"; with_limit := 30; with_window := 60000 |};
                 {| at_time := 2; key := "6.6.6.6"; with_limit := 30; with_window := 60000 |} ] in
  Forall (fun c => key c <> "10.0.0.7") flood
  /\ fst (allow (fold_left after_call flood ∅) 3 "10.0.0.7" 1 60000)
     = fst (allow ∅ 3 "10.0.0.7" 1 60000).
Proof.
  intros flood.
  assert (H : Forall (fun c => key c <> "10.0.0.7") flood)
    by (repeat constructor; discriminate).
  split; [exact H|].
  exact (proj1 (proj2 (other_keys_do_not_interfere ∅ flood "10.0.0.7" 3 1 60000 H))).
Defined.

Lemma or_else_nonempty o d : d <> "" -> or_else o d <> "".
Proof.
  intros Hd. unfold or_else. destruct o as [s|]; [|exact Hd].
  destruct (String.eqb_spec s ""); [exact Hd|assumption].
Qed.

(** X3.  The key a request is limited under is never the empty string; it
    is the trimmed first entry of [X-Forwarded-For] whenever that entry is
    not blank, whatever the socket address, and otherwise the socket address
    or ["unknown"]. *)
Theorem client_ip_never_empty req :
  client_ip req <> ""
  /\ (forall h, x_forwarded_for req = Some h ->
      trim (first_segment h) <> "" ->
      client_ip req = trim (first_segment h))
  /\ ((x_forwarded_for req = None
       \/ exists h, x_forwarded_for req = Some h /\ trim (first_segment h) = "") ->
      client_ip req = or_else (remoteAddress req) "unknown").
Proof.
  split; [|split].
  - unfold client_ip. apply or_else_nonempty, or_else_nonempty. discriminate.
  - intros h Hh Hne. unfold client_ip. rewrite Hh. cbn [option_map or_else].
    destruct (String.eqb_spec (trim (first_segment h)) ""); [contradiction|reflexivity].
  - intros [Hn|(h & Hh & He)]; unfold client_ip.
    + rewrite Hn. reflexivity.
    + rewrite Hh. cbn [option_map or_else]. rewrite He. reflexivity.
Qed.

Lemma client_ip_never_empty_witness :
  let req := {| x_forwarded_for := Some " 203.0.113.9 , 10.0.0.1";
                remoteAddress := Some "10.0.0.7"; x_admin := None;
                cookie_access := None; body := JObj []; query_text := None;
                query_voice := None; query_q := None; query_limit := None |} in
  x_forwarded_for req = Some " 203.0.113.9 , 10.0.0.1"
  /\ trim (first_segment " 203.0.113.9 , 10.0.0.1") <> ""
  /\ client_ip req = "203.0.113.9".
Proof.
  intros req.
  assert (H1 : x_forwarded_for req = Some " 203.0.113.9 , 10.0.0.1") by reflexivity.
  assert (H2 : trim (first_segment " 203.0.113.9 , 10.0.0.1") <> "") by discriminate.
  split; [exact H1|]. split; [exact H2|].
  exact (proj1 (proj2 (client_ip_never_empty req)) _ H1 H2).
Defined.

End Windows.

(** ** Roles and guards *)

Section Roles.
Import Js Http Sqlite.

Variable env : process_env.
Variable jwt_verify : string -> option string -> string -> option jsval.
Variable jwt_decode : string -> jsval.

(** X4.  When no signing secret is configured the token in the [access]
    cookie is decoded without being verified, so any token whose payload
    names the role ["superadmin"] passes [requireSuperadmin], with or
    without the bypass header. *)
Theorem unverified_token_is_trusted req token :
  present (AUTH_JWT_SECRET env) = false ->
  cookie_access req = Some token ->
  token <> "" ->
  opt_get (jwt_decode token) "role" = JStr "superadmin" ->
  getRoleFromCookie env jwt_verify jwt_decode req = JStr "superadmin"
  /\ forall st next,
       requireSuperadmin env jwt_verify jwt_decode req st next = next st.
Proof.
  intros Hsecret Hcookie Htoken Hrole.
  assert (Hr : getRoleFromCookie env jwt_verify jwt_decode req = JStr "superadmin").
  { unfold getRoleFromCookie. rewrite Hcookie.
    destruct (String.eqb_spec token ""); [contradiction|].
    unfold present in Hsecret.
    destruct (AUTH_JWT_SECRET env) as [secret|].
    - destruct (String.eqb secret ""); [|discriminate]. rewrite Hrole. reflexivity.
    - rewrite Hrole. reflexivity. }
  split; [exact Hr|]. intros st next. unfold requireSuperadmin. rewrite Hr. reflexivity.
Qed.

(** X5.  Without an [access] cookie, or when verification of the token
    throws, the resolved role is [null] and the superadmin guard decides on
    the bypass header alone. *)
Theorem no_role_leaves_the_bypass req :
  (present (cookie_access req) = false
   \/ exists token secret,
        cookie_access req = Some token /\ AUTH_JWT_SECRET env = Some secret
        /\ secret <> ""
        /\ jwt_verify secret
             (if present (AUTH_JWT_ISSUER env) then AUTH_JWT_ISSUER env else None)
             token = None) ->
  getRoleFromCookie env jwt_verify jwt_decode req = JNull
  /\ admits env jwt_verify jwt_decode req = bypass env req.
Proof.
  intros H.
  assert (Hr : getRoleFromCookie env jwt_verify jwt_decode req = JNull).
  { unfold getRoleFromCookie. destruct H as [Hc|(token & secret & Hc & Hs & Hne & Hv)].
    - unfold present in Hc. destruct (cookie_access req) as [t|]; [|reflexivity].
      destruct (String.eqb t ""); [reflexivity|discriminate].
    - rewrite Hc, Hs. destruct (String.eqb token ""); [reflexivity|].
      destruct (String.eqb_spec secret ""); [contradiction|]. rewrite Hv. reflexivity. }
  split; [exact Hr|]. unfold admits. rewrite Hr. reflexivity.
Qed.

End Roles.

Section Gating.
Import Js Http Sqlite.

(** A decoder that reads the role off a token without checking anything. *)
Lemma unverified_token_is_trusted_witness :
  let decode (token : string) := JObj [("role", JStr "superadmin")] in
  let req := with_credentials (Fixtures.S.anonymous (JObj [])) (Some "forged") None in
  present (AUTH_JWT_SECRET Fixtures.S.env) = false
  /\ cookie_access req = Some "forged"
  /\ "forged" <> ""
  /\ opt_get (decode "forged") "role" = JStr "superadmin"
  /\ getRoleFromCookie Fixtures.S.env Fixtures.S.jwt_verify decode req = JStr "superadmin".
Proof.
  intros decode req.
  assert (H1 : present (AUTH_JWT_SECRET Fixtures.S.env) = false) by reflexivity.
  assert (H2 : cookie_access req = Some "forged") by reflexivity.
  assert (H3 : "forged" <> "") by discriminate.
  assert (H4 : opt_get (decode "forged") "role" = JStr "superadmin") by reflexivity.
  repeat (split; [assumption|]).
  exact (proj1 (unverified_token_is_trusted Fixtures.S.env Fixtures.S.jwt_verify decode
                  req "forged" H1 H2 H3 H4)).
Defined.

Lemma no_role_leaves_the_bypass_witness :
  let req := Fixtures.S.admin (JObj []) in
  present (cookie_access req) = false
  /\ getRoleFromCookie Fixtures.S.env Fixtures.S.jwt_verify Fixtures.S.jwt_decode req = JNull
  /\ admits Fixtures.S.env Fixtures.S.jwt_verify Fixtures.S.jwt_decode req
     = bypass Fixtures.S.env req.
Proof.
  intros req.
  assert (H : present (cookie_access req) = false) by reflexivity.
  split; [exact H|].
  exact (no_role_leaves_the_bypass Fixtures.S.env Fixtures.S.jwt_verify
           Fixtures.S.jwt_decode req (or_introl H)).
Defined.

(** X6.  On the rate-limited superadmin routes the limiter runs before the
    guard: a request the guard refuses is answered 401 (or 429 once the
    budget is spent), reaches neither the provider nor the settings nor the
    log, and is still counted against the caller's key. *)
Theorem refused_admin_requests_are_counted env fetch jwt_verify jwt_decode
    toISOString now req st :
  admits env jwt_verify jwt_decode req = false ->
  let chat := POST_super_chat env fetch jwt_verify jwt_decode toISOString now req st in
  let tts := GET_super_tts env fetch jwt_verify jwt_decode now req st in
  (calls chat = []
   /\ chat_settings (final chat) = chat_settings st
   /\ chat_logs (final chat) = chat_logs st
   /\ bucket (final chat) = snd (allow (bucket st) now (client_ip req) 60 60000)
   /\ status (resp chat)
      = if fst (allow (bucket st) now (client_ip req) 60 60000) then 401 else 429)
  /\ (calls tts = []
      /\ chat_settings (final tts) = chat_settings st
      /\ chat_logs (final tts) = chat_logs st
      /\ bucket (final tts) = snd (allow (bucket st) now (client_ip req) 30 60000)
      /\ status (resp tts)
         = if fst (allow (bucket st) now (client_ip req) 30 60000) then 401 else 429)
  /\ count_of (bucket (final chat)) (client_ip req)
     = count (current (bucket st) now (client_ip req) 60000) + 1
  /\ count_of (bucket (final tts)) (client_ip req)
     = count (current (bucket st) now (client_ip req) 60000) + 1.
Proof.
  intros Hno chat tts. subst chat tts.
  unfold POST_super_chat, GET_super_tts. rewrite !rateLimit_unfold. cbv zeta.
  rewrite !requireSuperadmin_unfold, Hno.
  assert (Hcount : forall limit,
             count_of (snd (allow (bucket st) now (client_ip req) limit 60000))
               (client_ip req)
             = count (current (bucket st) now (client_ip req) 60000) + 1).
  { intros limit. rewrite allow_unfold. cbn [snd]. unfold count_of.
    rewrite lookup_insert_eq. reflexivity. }
  split; [|split; [|split]].
  - destruct (fst (allow _ _ _ 60 _)); repeat split; reflexivity.
  - destruct (fst (allow _ _ _ 30 _)); repeat split; reflexivity.
  - destruct (fst (allow _ _ _ 60 _)); apply Hcount.
  - destruct (fst (allow _ _ _ 30 _)); apply Hcount.
Qed.


Lemma refused_admin_requests_are_counted_witness :
  let req := Fixtures.S.anonymous Fixtures.S.chat_body in
  let chat := POST_super_chat Fixtures.S.env Fixtures.S.fetch_hello Fixtures.S.jwt_verify
                Fixtures.S.jwt_decode Fixtures.iso 0 req Fixtures.S.st0 in
  admits Fixtures.S.env Fixtures.S.jwt_verify Fixtures.S.jwt_decode req = false
  /\ calls chat = []
  /\ status (resp chat) = 401
  /\ count_of (bucket (final chat)) "10.0.0.7" = 1.
Proof.
  intros req chat.
  assert (H : admits Fixtures.S.env Fixtures.S.jwt_verify Fixtures.S.jwt_decode req = false)
    by reflexivity.
  pose proof (refused_admin_requests_are_counted Fixtures.S.env Fixtures.S.fetch_hello
                Fixtures.S.jwt_verify Fixtures.S.jwt_decode Fixtures.iso 0 req
                Fixtures.S.st0 H) as ((Hcalls & _ & _ & _ & Hstatus) & _ & Hcount & _).
  split; [exact H|]. split; [exact Hcalls|]. split; [exact Hstatus|exact Hcount].
Defined.

Lemma requireUser_unfold env jv jd req st next :
  requireUser env jv jd req st next = next st.
Proof. unfold requireUser. destruct (truthy _); reflexivity. Qed.

(** X7.  The user routes do not look at credentials: the same request sent
    with any other [access] cookie and [x-admin] header gets the same
    response, leaves the same state and causes the same upstream request. *)
Theorem user_routes_ignore_credentials env fetch jwt_verify jwt_decode toISOString
    now req st cookie header :
  POST_chat_user_send env fetch jwt_verify jwt_decode toISOString now
    (with_credentials req cookie header) st
  = POST_chat_user_send env fetch jwt_verify jwt_decode toISOString now req st
  /\ GET_tts env fetch now (with_credentials req cookie header) st
     = GET_tts env fetch now req st.
Proof.
  unfold POST_chat_user_send, GET_tts. rewrite !rateLimit_unfold. cbv zeta.
  change (client_ip (with_credentials req cookie header)) with (client_ip req).
  split.
  - destruct (fst (allow _ _ _ _ _)); [|reflexivity].
    rewrite !requireUser_unfold. reflexivity.
  - destruct (fst (allow _ _ _ _ _)); reflexivity.
Qed.

End Gating.

(** ** Settings *)

Section SettingsRoundTrip.
Import Js Http Sqlite.

Lemma coalesce_idem p col : coalesce p (coalesce p col) = coalesce p col.
Proof. destruct p; reflexivity. Qed.

Lemma update_settings_idem b r :
  update_settings b (update_settings b r) = update_settings b r.
Proof. unfold update_settings. cbn. rewrite !coalesce_idem. reflexivity. Qed.

(** X8.  For a request the guard lets through whose four fields are
    values the driver binds, updating the settings twice with the same body
    is the same as updating once, and reading the settings afterwards
    returns the body the update answered with.  When the driver refuses one
    of the fields (a boolean, an array, an object) the update is answered
    500, nothing is stored, and reading the settings afterwards returns the
    row as it was.  A request the guard refuses changes nothing. *)
Theorem put_settings_read_back env jwt_verify jwt_decode req st :
  let b := js_or (body req) (JObj []) in
  let put := PUT_super_settings env jwt_verify jwt_decode req st in
  let again := PUT_super_settings env jwt_verify jwt_decode req (final put) in
  let get := GET_super_settings env jwt_verify jwt_decode req (final put) in
  (admits env jwt_verify jwt_decode req = true ->
   forallb bindable (update_params b) = true ->
   final again = final put /\ resp again = resp put /\ resp get = resp put
   /\ final get = final put)
  /\ (admits env jwt_verify jwt_decode req = true ->
      forallb bindable (update_params b) = false ->
      final put = st /\ status (resp put) = 500
      /\ resp get = {| status := 200; sent := settings_json (chat_settings st) |})
  /\ (admits env jwt_verify jwt_decode req = false ->
      final put = st /\ status (resp put) = 401).
Proof.
  intros b put again get. subst put again get.
  unfold PUT_super_settings, GET_super_settings.
  rewrite !requireSuperadmin_unfold. split; [|split].
  - intros -> Hb. unfold put_settings_handler, get_settings_handler. fold b.
    rewrite !Hb. cbn. rewrite update_settings_idem. repeat split; reflexivity.
  - intros -> Hb. unfold put_settings_handler, get_settings_handler. fold b.
    rewrite !Hb. repeat split; reflexivity.
  - intros ->. split; reflexivity.
Qed.

Lemma put_settings_read_back_witness :
  let req := Fixtures.S.admin (JObj [("model", JStr "gpt-4o"); ("system_prompt", JStr "")]) in
  let put := PUT_super_settings Fixtures.S.env Fixtures.S.jwt_verify Fixtures.S.jwt_decode
               req (Fixtures.S.with_prompt "Be brief.") in
  let get := GET_super_settings Fixtures.S.env Fixtures.S.jwt_verify Fixtures.S.jwt_decode
               req (final put) in
  admits Fixtures.S.env Fixtures.S.jwt_verify Fixtures.S.jwt_decode req = true
  /\ forallb bindable (update_params (js_or (body req) (JObj []))) = true
  /\ resp get = resp put.
Proof.
  intros req put get.
  assert (H : admits Fixtures.S.env Fixtures.S.jwt_verify Fixtures.S.jwt_decode req = true)
    by reflexivity.
  assert (Hb : forallb bindable (update_params (js_or (body req) (JObj []))) = true)
    by reflexivity.
  split; [exact H|]. split; [exact Hb|].
  exact (proj1 (proj2 (proj2 (proj1 (put_settings_read_back Fixtures.S.env
           Fixtures.S.jwt_verify Fixtures.S.jwt_decode req
           (Fixtures.S.with_prompt "Be brief.")) H Hb)))).
Defined.

End SettingsRoundTrip.

(** ** The log as the server runs *)

Section LogGrowth.
Import Js Http Sqlite.

Lemma js_nc_not_nullish v : nullish (js_nc v (JStr "")) = false.
Proof. unfold js_nc. destruct (nullish v) eqn:H; [reflexivity|exact H]. Qed.

Lemma js_or_null v : js_or v JNull = JNull \/ truthy (js_or v JNull) = true.
Proof. unfold js_or. destruct (truthy v) eqn:H; [right; exact H|left; reflexivity]. Qed.

(** What one chat handler does to the log: nothing unless it answers 200,
    and then one row with the next id. *)
Lemma complete_chat_step env fetch toISOString sc who msgs now st :
  let out := complete_chat env fetch toISOString sc who msgs now st in
  chat_settings (final out) = chat_settings st
  /\ bucket (final out) = bucket st
  /\ ((status (resp out) <> 200 /\ chat_logs (final out) = chat_logs st)
      \/ (status (resp out) = 200
          /\ exists row,
               chat_logs (final out) = chat_logs st ++ [row]
               /\ log_id row = next_id (chat_logs st)
               /\ scope row = sc /\ actor row = who
               /\ nullish (reply row) = false
               /\ (tokens_prompt row = JNull \/ truthy (tokens_prompt row) = true)
               /\ (tokens_completion row = JNull
                   \/ truthy (tokens_completion row) = true))).
Proof.
  intros out. subst out. unfold complete_chat.
  destruct (iterate msgs) as [ms|];
    [|cbn; repeat split; left; split; [discriminate|reflexivity]].
  destruct (fetch _) as [e|r];
    [cbn; repeat split; left; split; [discriminate|reflexivity]|].
  destruct (up_json r) as [data|e];
    [|cbn; repeat split; left; split; [discriminate|reflexivity]].
  destruct (ok r) eqn:Hok; cbn [negb].
  - destruct (forallb bindable (insert_params who data)); cbn [negb];
      [|cbn; repeat split; left; split; [discriminate|reflexivity]].
    cbn. repeat split. right. split; [reflexivity|].
    unfold insert_log. eexists. split; [reflexivity|]. cbn.
    repeat split; try reflexivity.
    + apply js_nc_not_nullish.
    + apply js_or_null.
    + apply js_or_null.
  - cbn. repeat split. left. split; [|reflexivity].
    apply not_ok_not_200. exact Hok.
Qed.

Lemma prefix_append p s : String.prefix p (p +:+ s) = true.
Proof.
  induction p as [|a p IH]; [destruct s; reflexivity|].
  change (String a p +:+ s) with (String a (p +:+ s)). cbn [String.prefix].
  destruct (ascii_dec a a); [exact IH|congruence].
Qed.

Lemma user_actor_tagged req :
  let b := js_or (body req) (JObj []) in
  let who := if truthy (opt_get b "user_id")
             then "user:" +:+ to_string (opt_get b "user_id")
             else "ip:" +:+ client_ip req in
  String.prefix "user:" who = true \/ String.prefix "ip:" who = true.
Proof.
  intros b who. subst who. destruct (truthy _); [left|right]; apply prefix_append.
Qed.

(** What one served request does to the log and the settings. *)
Lemma serve_step env fetch jv jd iso r now req st :
  let out := serve env fetch jv jd iso r now req st in
  (r <> PutSettings -> chat_settings (final out) = chat_settings st)
  /\ if is_chat r && (status (resp out) =? 200)
     then exists row,
            chat_logs (final out) = chat_logs st ++ [row]
            /\ log_id row = next_id (chat_logs st)
            /\ well_formed_row row
            /\ scope row = (match r with UserSend => "user" | _ => "super" end)
     else chat_logs (final out) = chat_logs st.
Proof.
  intros out. subst out. destruct r; cbn [serve is_chat andb].
  - split; [congruence|]. unfold PUT_super_settings.
    rewrite requireSuperadmin_unfold.
    destruct (admits env jv jd req); [apply put_settings_logs|reflexivity].
  - unfold POST_super_chat. rewrite rateLimit_unfold. cbv zeta.
    destruct (fst (allow _ _ _ _ _)); [|split; reflexivity].
    rewrite requireSuperadmin_unfold.
    destruct (admits env jv jd req); [|split; reflexivity].
    unfold super_chat_handler.
    match goal with |- context [complete_chat ?e ?f ?i ?sc ?who ?ms ?n ?s0] =>
      pose proof (complete_chat_step e f i sc who ms n s0) as (Hs & _ & Hl) end.
    split; [intros _; exact Hs|].
    destruct Hl as [[Hne Hlogs]|[H200 (row & Hlogs & Hid & Hsc & Hwho & Hr & Hp & Hc)]].
    + destruct (Z.eqb_spec (status (resp (complete_chat env fetch iso "super"
                  (js_default (opt_get (js_or (body req) (JObj [])) "admin_user")
                     (JStr "superadmin"))
                  (request_messages req) now
                  (with_bucket st (snd (allow (bucket st) now (client_ip req) 60 60000))))))
                 200); [contradiction|exact Hlogs].
    + rewrite H200. cbn [Z.eqb Pos.eqb]. exists row.
      split; [exact Hlogs|]. split; [exact Hid|]. split; [|exact Hsc].
      unfold well_formed_row. rewrite Hsc.
      split; [left; reflexivity|]. split; [exact Hr|]. split; [exact Hp|].
      split; [exact Hc|]. discriminate.
  - split; [intros _|].
    + unfold GET_super_tts. rewrite rateLimit_unfold. cbv zeta.
      destruct (fst (allow _ _ _ _ _)); [|reflexivity].
      rewrite requireSuperadmin_unfold.
      destruct (admits env jv jd req); [|reflexivity].
      unfold tts_handler. destruct (String.eqb _ "browser"); [reflexivity|].
      destruct (fetch _) as [e|r]; [reflexivity|]. destruct (negb (ok r)); reflexivity.
    + unfold GET_super_tts. rewrite rateLimit_unfold. cbv zeta.
      destruct (fst (allow _ _ _ _ _)); [|reflexivity].
      rewrite requireSuperadmin_unfold.
      destruct (admits env jv jd req); [|reflexivity].
      rewrite tts_handler_final. reflexivity.
  - unfold POST_chat_user_send. rewrite rateLimit_unfold. cbv zeta.
    destruct (fst (allow _ _ _ _ _)); [|split; reflexivity].
    rewrite requireUser_unfold. unfold user_send_handler.
    destruct (truthy _ && negb _); [split; reflexivity|].
    match goal with |- context [complete_chat ?e ?f ?i ?sc ?who ?ms ?n ?s0] =>
      pose proof (complete_chat_step e f i sc who ms n s0) as (Hs & _ & Hl);
      set (out := complete_chat e f i sc who ms n s0) in *
    end.
    split; [intros _; exact Hs|].
    destruct Hl as [[Hne Hlogs]|[H200 (row & Hlogs & Hid & Hsc & Hwho & Hr & Hp & Hc)]].
    + destruct (Z.eqb_spec (status (resp out)) 200); [contradiction|exact Hlogs].
    + rewrite H200. cbn [Z.eqb Pos.eqb]. exists row.
      split; [exact Hlogs|]. split; [exact Hid|]. split; [|exact Hsc].
      unfold well_formed_row. rewrite Hsc.
      split; [right; reflexivity|]. split; [exact Hr|]. split; [exact Hp|].
      split; [exact Hc|]. intros _. eexists. split; [exact Hwho|].
      apply user_actor_tagged.
  - split; [intros _|].
    + unfold GET_tts. rewrite rateLimit_unfold. cbv zeta.
      destruct (fst (allow _ _ _ _ _)); [|reflexivity].
      unfold tts_handler. destruct (String.eqb _ "browser"); [reflexivity|].
      destruct (fetch _) as [e|r]; [reflexivity|]. destruct (negb (ok r)); reflexivity.
    + unfold GET_tts. rewrite rateLimit_unfold. cbv zeta.
      destruct (fst (allow _ _ _ _ _)); [|reflexivity].
      rewrite tts_handler_final. reflexivity.
Qed.


(** X9.  Over any sequence of requests the log only grows at its end: the
    rows present before are still there, unchanged and in place, and the
    number of rows added is the number of chat requests answered 200. *)
Theorem log_grows_by_answered_chats env jwt_verify jwt_decode toISOString evs : forall st,
  let result := run env jwt_verify jwt_decode toISOString evs st in
  exists added,
    chat_logs (snd result) = chat_logs st ++ added
    /\ length added = answered_chats evs (fst result).
Proof.
  induction evs as [|e evs IH]; intros st result; subst result.
  - exists []. split; [symmetry; apply app_nil_r|reflexivity].
  - cbn [run fst snd answered_chats].
    set (o := serve env (ev_fetch e) jwt_verify jwt_decode toISOString
                (ev_route e) (ev_now e) (ev_req e) st).
    destruct (IH (final o)) as (added & Hadd & Hlen).
    pose proof (serve_step env (ev_fetch e) jwt_verify jwt_decode toISOString
                  (ev_route e) (ev_now e) (ev_req e) st) as [_ Hstep].
    fold o in Hstep.
    destruct (is_chat (ev_route e) && (status (resp o) =? 200)).
    + destruct Hstep as (row & Hrow & _). exists (row :: added).
      rewrite Hadd, Hrow, <- app_assoc. split; [reflexivity|].
      cbn [length]. rewrite Hlen. reflexivity.
    + exists added. rewrite Hadd, Hstep. split; [reflexivity|exact Hlen].
Qed.

(** X10.  Only the settings route changes the settings: a sequence of
    requests none of which is a settings update leaves the settings row as
    it was, whatever the provider answers. *)
Theorem settings_change_only_by_put env jwt_verify jwt_decode toISOString evs : forall st,
  Forall (fun e => ev_route e <> PutSettings) evs ->
  chat_settings (snd (run env jwt_verify jwt_decode toISOString evs st))
  = chat_settings st.
Proof.
  induction evs as [|e evs IH]; intros st Hall; [reflexivity|].
  apply Forall_cons in Hall as [He Hall]. cbn [run snd].
  rewrite (IH _ Hall).
  exact (proj1 (serve_step env (ev_fetch e) jwt_verify jwt_decode toISOString
                  (ev_route e) (ev_now e) (ev_req e) st) He).
Qed.

Lemma settings_change_only_by_put_witness :
  let evs := [ {| ev_fetch := Fixtures.S.fetch_hello; ev_route := UserSend; ev_now := 0;
                  ev_req := Fixtures.S.anonymous Fixtures.S.chat_body |};
               {| ev_fetch := Fixtures.S.fetch_bad_gateway; ev_route := SuperChat; ev_now := 5;
                  ev_req := Fixtures.S.admin Fixtures.S.chat_body |} ] in
  Forall (fun e => ev_route e <> PutSettings) evs
  /\ chat_settings (snd (run Fixtures.S.env Fixtures.S.jwt_verify Fixtures.S.jwt_decode
                           Fixtures.iso evs (Fixtures.S.with_prompt "Be brief.")))
     = chat_settings (Fixtures.S.with_prompt "Be brief.").
Proof.
  intros evs.
  assert (H : Forall (fun e => ev_route e <> PutSettings) evs)
    by (repeat constructor; discriminate).
  split; [exact H|].
  exact (settings_change_only_by_put Fixtures.S.env Fixtures.S.jwt_verify
           Fixtures.S.jwt_decode Fixtures.iso evs (Fixtures.S.with_prompt "Be brief.") H).
Defined.

Lemma max_of_run n : forall a,
  fold_right Z.max 0 (map Z.of_nat (seq a n))
  = match n with
    | O => 0
    | S n' => Z.of_nat (a + n')
    end.
Proof.
  induction n as [|n IH]; intros a; [reflexivity|].
  cbn [seq map fold_right]. rewrite IH. destruct n; lia.
Qed.

Lemma next_id_of_run t :
  map log_id t = map Z.of_nat (seq 1 (length t)) ->
  next_id t = Z.of_nat (S (length t)).
Proof.
  intros H. unfold next_id. rewrite H, max_of_run. destruct (length t); lia.
Qed.

(** X11.  In every state the server reaches from an empty database the ids
    of the log rows are 1, 2, ..., n in insertion order: no id is skipped or
    used twice. *)
Theorem reachable_ids_are_consecutive env jwt_verify jwt_decode toISOString st :
  reachable env jwt_verify jwt_decode toISOString st ->
  map log_id (chat_logs st) = map Z.of_nat (seq 1 (length (chat_logs st))).
Proof.
  induction 1 as [|st fetch r now req _ IH]; [reflexivity|].
  pose proof (serve_step env fetch jwt_verify jwt_decode toISOString r now req st)
    as [_ Hstep].
  destruct (is_chat r && _).
  - destruct Hstep as (row & -> & Hid & _).
    rewrite map_app, length_app. cbn [length map].
    replace (length (chat_logs st) + 1)%nat with (S (length (chat_logs st))) by lia.
    rewrite seq_S, map_app, <- IH. cbn [map]. rewrite Hid, (next_id_of_run _ IH).
    reflexivity.
  - rewrite Hstep. exact IH.
Qed.

Lemma reachable_ids_are_consecutive_witness :
  let st := final (serve Fixtures.S.env Fixtures.S.fetch_hello Fixtures.S.jwt_verify
                     Fixtures.S.jwt_decode Fixtures.iso UserSend 0
                     (Fixtures.S.anonymous Fixtures.S.chat_body) Fixtures.S.st0) in
  reachable Fixtures.S.env Fixtures.S.jwt_verify Fixtures.S.jwt_decode Fixtures.iso st
  /\ map log_id (chat_logs st) = [1].
Proof.
  intros st.
  assert (H : reachable Fixtures.S.env Fixtures.S.jwt_verify Fixtures.S.jwt_decode
                Fixtures.iso st).
  { apply reachable_serve. apply reachable_start. }
  split; [exact H|].
  exact (reachable_ids_are_consecutive Fixtures.S.env Fixtures.S.jwt_verify
           Fixtures.S.jwt_decode Fixtures.iso st H).
Defined.

(** X12.  Every row of a reachable log has scope ["super"] or ["user"], a
    reply that is not [null] (a missing reply is stored as the empty string,
    so the column's NOT NULL holds), token counters that are [null] or
    truthy (a count of zero is stored as NULL), and, for scope ["user"], an
    actor that starts with ["user:"] or ["ip:"]. *)
Theorem reachable_rows_are_well_formed env jwt_verify jwt_decode toISOString st :
  reachable env jwt_verify jwt_decode toISOString st ->
  Forall well_formed_row (chat_logs st).
Proof.
  induction 1 as [|st fetch r now req _ IH]; [constructor|].
  pose proof (serve_step env fetch jwt_verify jwt_decode toISOString r now req st)
    as [_ Hstep].
  destruct (is_chat r && _).
  - destruct Hstep as (row & -> & _ & Hwf & _).
    apply Forall_app. split; [exact IH|]. constructor; [exact Hwf|constructor].
  - rewrite Hstep. exact IH.
Qed.

Lemma reachable_rows_are_well_formed_witness :
  let st := final (serve Fixtures.S.env Fixtures.S.fetch_empty Fixtures.S.jwt_verify
                     Fixtures.S.jwt_decode Fixtures.iso UserSend 0
                     (Fixtures.S.anonymous Fixtures.S.chat_body) Fixtures.S.st0) in
  reachable Fixtures.S.env Fixtures.S.jwt_verify Fixtures.S.jwt_decode Fixtures.iso st
  /\ length (chat_logs st) = 1%nat
  /\ Forall well_formed_row (chat_logs st).
Proof.
  intros st.
  assert (H : reachable Fixtures.S.env Fixtures.S.jwt_verify Fixtures.S.jwt_decode
                Fixtures.iso st).
  { apply reachable_serve. apply reachable_start. }
  split; [exact H|]. split; [reflexivity|].
  exact (reachable_rows_are_well_formed Fixtures.S.env Fixtures.S.jwt_verify
           Fixtures.S.jwt_decode Fixtures.iso st H).
Defined.

End LogGrowth.

(** ** The handlers at their edges *)

Section HandlerEdges.
Import Js Http Sqlite.

Variable env : process_env.
Variable fetch : fetch_request -> fetch_result.
Variable toISOString : Z -> string.

Lemma complete_chat_skips sc who msgs now st :
  calls (complete_chat env fetch toISOString sc who msgs now st) = []
  <-> iterate msgs = None.
Proof.
  destruct (iterate msgs) as [ms|] eqn:Hit.
  - rewrite (complete_chat_calls env fetch toISOString sc who _ now st ms Hit).
    split; discriminate.
  - unfold complete_chat. rewrite Hit. split; reflexivity.
Qed.

Lemma complete_chat_not_iterable sc who msgs now st :
  iterate msgs = None ->
  complete_chat env fetch toISOString sc who msgs now st
  = chat_failed st "TypeError: messages is not iterable" [].
Proof. intros Hit. unfold complete_chat. rewrite Hit. reflexivity. Qed.

(** X13.  A chat handler leaves the provider alone exactly when it throws
    before the request is posted: when the request's [messages] cannot be
    iterated (a number, a boolean, an object or [null]; a missing field
    counts as the empty array) and, in the user handler, when the [user_id]
    of the body is an object that cannot be converted to a string.  It then
    answers 500 [chat_failed] and changes nothing.  In every other case it
    posts exactly one request. *)
Theorem provider_skipped_iff_not_iterable now req st :
  let super := super_chat_handler env fetch toISOString now req st in
  let user := user_send_handler env fetch toISOString now req st in
  let msgs := request_messages req in
  (calls super = [] <-> iterate msgs = None)
  /\ (calls user = [] <-> iterate msgs = None \/ user_id_converts req = false)
  /\ (calls super = [] -> status (resp super) = 500 /\ final super = st)
  /\ (calls user = [] -> status (resp user) = 500 /\ final user = st)
  /\ (forall ms, iterate msgs = Some ms ->
      calls super = [posted env st ms]
      /\ (user_id_converts req = true -> calls user = [posted env st ms]))
  /\ (iterate msgs = None <->
      match msgs with
      | JArr _ | JStr _ => False
      | _ => True
      end)
  /\ (opt_get (js_or (body req) (JObj [])) "messages" = JUndef ->
      iterate msgs = Some []).
Proof.
  intros super user msgs.
  assert (Hsuper : calls super = [] <-> iterate msgs = None)
    by apply complete_chat_skips.
  assert (Huser : calls user = [] <-> iterate msgs = None \/ user_id_converts req = false).
  { subst user. destruct (user_id_converts req) eqn:Hc.
    - destruct (user_send_handler_converts env fetch toISOString now req st Hc)
        as [who ->].
      rewrite complete_chat_skips. fold msgs. split; [left; assumption|].
      intros [H|H]; [exact H|discriminate].
    - rewrite (user_send_handler_throws env fetch toISOString now req st Hc).
      split; [right|]; reflexivity. }
  split; [exact Hsuper|]. split; [exact Huser|].
  split; [|split; [|split; [|split]]].
  - intros H. apply Hsuper in H. subst super. unfold super_chat_handler.
    rewrite (complete_chat_not_iterable _ _ _ _ _ H). split; reflexivity.
  - intros H. apply Huser in H. subst user.
    destruct (user_id_converts req) eqn:Hc.
    + destruct H as [H|H]; [|discriminate].
      destruct (user_send_handler_converts env fetch toISOString now req st Hc)
        as [who ->].
      rewrite (complete_chat_not_iterable _ _ _ _ _ H). split; reflexivity.
    + rewrite (user_send_handler_throws env fetch toISOString now req st Hc).
      split; reflexivity.
  - intros ms Hit. split.
    + apply complete_chat_calls. exact Hit.
    + intros Hc. subst user.
      destruct (user_send_handler_converts env fetch toISOString now req st Hc)
        as [who ->].
      apply complete_chat_calls. exact Hit.
  - destruct msgs; cbn; split; intros H;
      try reflexivity; try exact I; try discriminate; try contradiction.
  - intros Hm. subst msgs. unfold request_messages. rewrite Hm. reflexivity.
Qed.

Lemma complete_chat_not_200 sc who msgs now st :
  let out := complete_chat env fetch toISOString sc who msgs now st in
  status (resp out) <> 200 ->
  final out = st
  /\ (status (resp out) = 500
      \/ exists ms r, fetch (posted env st ms) = Resolved r
                      /\ ok r = false /\ status (resp out) = up_status r).
Proof.
  intros out. subst out. unfold complete_chat.
  destruct (iterate msgs) as [ms|] eqn:Hit;
    [|intros _; split; [reflexivity|left; reflexivity]].
  fold (posted env st ms).
  destruct (fetch (posted env st ms)) as [e|r] eqn:Hf;
    [intros _; split; [reflexivity|left; reflexivity]|].
  destruct (up_json r) as [data|e];
    [|intros _; split; [reflexivity|left; reflexivity]].
  destruct (ok r) eqn:Hok; cbn [negb].
  - destruct (forallb bindable (insert_params who data)); cbn [negb].
    + cbn. intros H. contradiction.
    + intros _. split; [reflexivity|left; reflexivity].
  - intros _. split; [reflexivity|]. right. exists ms, r. auto.
Qed.

(** X14.  A chat handler answers 200 exactly when it gets to the provider,
    the provider's response has a success status and a JSON body, and the
    driver binds the values of the insert: the actor, the reply and the two
    token counters of the body (the user handler's actor is a string, which
    it always binds).  Every other answer is 500 or the provider's own
    non-success status, and leaves the state as it was. *)
Theorem chat_answers_200_iff now req st :
  let super := super_chat_handler env fetch toISOString now req st in
  let user := user_send_handler env fetch toISOString now req st in
  let answered (bound : jsval -> bool) :=
    exists ms r data,
      iterate (request_messages req) = Some ms
      /\ fetch (posted env st ms) = Resolved r
      /\ ok r = true /\ up_json r = JsonOk data
      /\ bound data = true in
  (status (resp super) = 200 <->
   answered (fun data => forallb bindable (insert_params (admin_user_of req) data)))
  /\ (status (resp user) = 200 <->
      user_id_converts req = true
      /\ answered (fun data => forallb bindable (reply_of data :: token_counters data)))
  /\ (forall out, out = super \/ out = user ->
      status (resp out) <> 200 ->
      final out = st
      /\ (status (resp out) = 500
          \/ exists ms r, fetch (posted env st ms) = Resolved r
                          /\ ok r = false /\ status (resp out) = up_status r)).
Proof.
  intros super user answered.
  assert (H200 : forall sc who,
             status (resp (complete_chat env fetch toISOString sc who
                             (request_messages req) now st)) = 200
             <-> answered (fun data => forallb bindable (insert_params who data))).
  { intros sc who. split; [apply complete_chat_200|].
    intros (ms & r & data & Hit & Hf & Hok & Hj & Hb).
    rewrite (complete_chat_ok env fetch toISOString sc who _ now st ms r data
               Hit Hf Hok Hj Hb).
    reflexivity. }
  split; [apply H200|]. split.
  - subst user. destruct (user_id_converts req) eqn:Hc.
    + destruct (user_send_handler_converts env fetch toISOString now req st Hc)
        as [who ->].
      rewrite H200. split; [intros H; split; [reflexivity|exact H]|intros [_ H]; exact H].
    + rewrite (user_send_handler_throws env fetch toISOString now req st Hc).
      split; [discriminate|intros [H _]; discriminate].
  - intros out [-> | ->]; subst super user.
    + apply complete_chat_not_200.
    + destruct (user_id_converts req) eqn:Hc.
      * destruct (user_send_handler_converts env fetch toISOString now req st Hc)
          as [who ->].
        apply complete_chat_not_200.
      * rewrite (user_send_handler_throws env fetch toISOString now req st Hc).
        intros _. split; [reflexivity|left; reflexivity].
Qed.

Lemma tts_handler_calls req st :
  engine env (chat_settings st) <> "browser" ->
  calls (tts_handler env fetch req st)
  = [AudioSpeech (bearer env)
       (or_else (query_voice req)
          (or_else (Some (tts_voice (chat_settings st))) (TTS_VOICE env)))
       (default "" (query_text req))].
Proof.
  intros Hne. unfold tts_handler.
  destruct (String.eqb_spec (engine env (chat_settings st)) "browser");
    [contradiction|].
  destruct (fetch _) as [e|r]; [reflexivity|]. destruct (negb (ok r)); reflexivity.
Qed.

(** X15.  The TTS handler never changes the state and posts at most one
    request.  It answers 200 exactly when the engine is not ["browser"] and
    the provider's status is a success; it answers 400 when the engine is
    ["browser"], and otherwise 500: a failing provider status is not passed
    on, only its text is. *)
Theorem tts_handler_outcomes req st :
  let out := tts_handler env fetch req st in
  let rq := AudioSpeech (bearer env)
              (or_else (query_voice req)
                 (or_else (Some (tts_voice (chat_settings st))) (TTS_VOICE env)))
              (default "" (query_text req)) in
  final out = st
  /\ (calls out = [] \/ calls out = [rq])
  /\ (status (resp out) = 200 <->
      engine env (chat_settings st) <> "browser"
      /\ exists r, fetch rq = Resolved r /\ ok r = true)
  /\ (status (resp out) = 400 <-> engine env (chat_settings st) = "browser")
  /\ (status (resp out) = 200 \/ status (resp out) = 400 \/ status (resp out) = 500)
  /\ (forall r, engine env (chat_settings st) <> "browser" ->
      fetch rq = Resolved r -> ok r = false ->
      resp out = {| status := 500; sent := Text (up_text r) |}).
Proof.
  intros out rq. subst out. unfold tts_handler. fold rq.
  destruct (String.eqb_spec (engine env (chat_settings st)) "browser") as [He|Hne].
  - cbn. split; [reflexivity|]. split; [left; reflexivity|].
    split; [split; [discriminate|intros [H _]; contradiction]|].
    split; [split; [intros _; exact He|reflexivity]|].
    split; [right; left; reflexivity|]. intros r H. contradiction.
  - destruct (fetch rq) as [e|r] eqn:Hf.
    + cbn. split; [reflexivity|]. split; [right; reflexivity|].
      split; [split; [discriminate|intros [_ (r & H & _)]; discriminate]|].
      split; [split; [discriminate|intros H; contradiction]|].
      split; [right; right; reflexivity|]. intros r _ H. discriminate.
    + destruct (ok r) eqn:Hok; cbn [negb]; cbn.
      * split; [reflexivity|]. split; [right; reflexivity|].
        split; [split; [intros _; split; [exact Hne|exists r; auto]|reflexivity]|].
        split; [split; [discriminate|intros H; contradiction]|].
        split; [left; reflexivity|].
        intros r' _ H Hok'. injection H as <-. congruence.
      * split; [reflexivity|]. split; [right; reflexivity|].
        split; [split; [discriminate|]|].
        { intros [_ (r' & H & Hok')]. injection H as <-. congruence. }
        split; [split; [discriminate|intros H; contradiction]|].
        split; [right; right; reflexivity|].
        intros r' _ H _. injection H as <-. reflexivity.
Qed.

(** X16.  Unless the environment sets [CHAT_MODEL] (or [TTS_VOICE]) to the
    empty string, the model (the voice) sent upstream is never empty, even
    after a settings update has stored the empty string: the handlers fall
    back on the configured default. *)
Theorem upstream_model_and_voice_never_empty req st ms :
  (env_CHAT_MODEL env <> Some "" ->
   exists authorization chat_model,
     posted env st ms = ChatCompletions authorization chat_model
                          (prefix_messages (chat_settings st) ++ ms)
     /\ chat_model <> ""
     /\ (model (chat_settings st) = "" -> chat_model = CHAT_MODEL env))
  /\ (env_TTS_VOICE env <> Some "" ->
      engine env (chat_settings st) <> "browser" ->
      exists authorization voice input,
        calls (tts_handler env fetch req st) = [AudioSpeech authorization voice input]
        /\ voice <> "").
Proof.
  split.
  - intros Henv. unfold posted, chat_request. do 2 eexists. split; [reflexivity|].
    split.
    + apply or_else_nonempty. unfold CHAT_MODEL.
      destruct (env_CHAT_MODEL env) as [m|]; [|discriminate].
      cbn. congruence.
    + intros ->. reflexivity.
  - intros Henv Hne.
    rewrite (tts_handler_calls req st Hne). do 3 eexists. split; [reflexivity|].
    apply or_else_nonempty, or_else_nonempty. unfold TTS_VOICE.
    destruct (env_TTS_VOICE env) as [v|]; [|discriminate]. cbn. congruence.
Qed.

End HandlerEdges.

Section HandlerEdgesWitnesses.
Import Js Http Sqlite.

Lemma provider_skipped_iff_not_iterable_witness :
  let req := Fixtures.S.anonymous
               (JObj [("messages", JArr [Fixtures.user_hi]);
                      ("user_id", JObj [("toString", JNum 1)])]) in
  let out := user_send_handler Fixtures.S.env Fixtures.S.fetch_hello Fixtures.iso 0 req
               Fixtures.S.st0 in
  iterate (request_messages req) = Some [Fixtures.user_hi]
  /\ user_id_converts req = false
  /\ calls out = []
  /\ status (resp out) = 500 /\ final out = Fixtures.S.st0.
Proof.
  intros req out.
  assert (H : iterate (request_messages req) = Some [Fixtures.user_hi]) by reflexivity.
  assert (Hc : user_id_converts req = false) by reflexivity.
  pose proof (provider_skipped_iff_not_iterable Fixtures.S.env Fixtures.S.fetch_hello
                Fixtures.iso 0 req Fixtures.S.st0)
    as (_ & Hcalls & _ & Hfail & _).
  split; [exact H|]. split; [exact Hc|].
  split; [exact (proj2 Hcalls (or_intror Hc))|].
  exact (Hfail (proj2 Hcalls (or_intror Hc))).
Defined.

Lemma chat_answers_200_iff_witness :
  let req := Fixtures.S.admin
               (JObj [("messages", JArr [Fixtures.user_hi]); ("admin_user", JBool true)]) in
  let out := super_chat_handler Fixtures.S.env Fixtures.S.fetch_hello Fixtures.iso 0
               req Fixtures.S.st0 in
  status (resp out) <> 200
  /\ final out = Fixtures.S.st0.
Proof.
  intros req out.
  assert (H : status (resp out) <> 200) by discriminate.
  split; [exact H|].
  exact (proj1 (proj2 (proj2 (chat_answers_200_iff Fixtures.S.env Fixtures.S.fetch_hello
                                Fixtures.iso 0 req Fixtures.S.st0))
                  out (or_introl eq_refl) H)).
Defined.

Lemma tts_handler_outcomes_witness :
  let req := Fixtures.S.admin_query None None in
  let speak (rq : fetch_request) :=
    Resolved {| up_status := 503; up_text := "overloaded"; up_json := JsonError "" |} in
  let out := tts_handler Fixtures.S.env speak req Fixtures.S.st0 in
  engine Fixtures.S.env (chat_settings Fixtures.S.st0) <> "browser"
  /\ resp out = {| status := 500; sent := Text "overloaded" |}.
Proof.
  intros req speak out.
  assert (H : engine Fixtures.S.env (chat_settings Fixtures.S.st0) <> "browser")
    by discriminate.
  pose proof (tts_handler_outcomes Fixtures.S.env speak req Fixtures.S.st0)
    as (_ & _ & _ & _ & _ & Hbad).
  split; [exact H|]. exact (Hbad _ H eq_refl eq_refl).
Defined.

Lemma upstream_model_and_voice_never_empty_witness :
  let st := with_settings Fixtures.S.st0
              {| model := ""; tts_engine := "openai"; tts_voice := "";
                 system_prompt := "" |} in
  env_CHAT_MODEL Fixtures.S.env <> Some ""
  /\ exists authorization chat_model,
       posted Fixtures.S.env st [Fixtures.user_hi]
       = ChatCompletions authorization chat_model
           (prefix_messages (chat_settings st) ++ [Fixtures.user_hi])
       /\ chat_model <> ""
       /\ (model (chat_settings st) = "" -> chat_model = CHAT_MODEL Fixtures.S.env).
Proof.
  intros st.
  assert (H : env_CHAT_MODEL Fixtures.S.env <> Some "") by discriminate.
  split; [exact H|].
  exact (proj1 (upstream_model_and_voice_never_empty Fixtures.S.env Fixtures.S.fetch_hello
                  (Fixtures.S.admin_query None None) st [Fixtures.user_hi]) H).
Defined.

End HandlerEdgesWitnesses.

(** ** Speech to text *)

Section SpeechToText.
Import Js Http Sqlite.

Lemma append_cons c s t : String c s +:+ t = String c (s +:+ t).
Proof. reflexivity. Qed.

Lemma append_empty_r s : s +:+ "" = s.
Proof. induction s as [|c s IH]; [reflexivity|]. rewrite append_cons, IH. reflexivity. Qed.

Lemma append_assoc s t u : (s +:+ t) +:+ u = s +:+ (t +:+ u).
Proof. induction s as [|c s IH]; [reflexivity|]. rewrite !append_cons, IH. reflexivity. Qed.

Lemma substring_head f t :
  String.substring 0 (String.length f) (f +:+ t) = f.
Proof.
  induction f as [|c f IH]; [destruct t; reflexivity|].
  rewrite append_cons. cbn [String.length String.substring]. rewrite IH. reflexivity.
Qed.

Lemma substring_middle h f t :
  String.substring (String.length h) (String.length f) (h +:+ f +:+ t) = f.
Proof.
  induction h as [|c h IH]; [exact (substring_head f t)|].
  rewrite append_cons. cbn [String.length String.substring]. exact IH.
Qed.

(** X17.  The body posted for a transcription is a fixed head, the uploaded
    bytes as they are, and a fixed tail; head and tail depend on the boundary
    only, the boundary announced in the content type is the one that
    delimits the parts, and the bytes can be read back at the offset the
    head's length gives. *)
Theorem multipart_body_carries_the_file env rnd file :
  let b := boundary rnd in
  let head := Buffer_concat (take 2 (multipart_parts b "")) in
  let tail := Buffer_concat (drop 3 (multipart_parts b "")) in
  transcription_request env rnd file
  = AudioTranscriptions (bearer env) ("multipart/form-data; boundary=" +:+ b)
      (head +:+ file +:+ tail)
  /\ String.substring (String.length head) (String.length file)
       (head +:+ file +:+ tail) = file
  /\ String.prefix ("--" +:+ b +:+ crlf) head = true
  /\ tail = crlf +:+ "--" +:+ b +:+ "--".
Proof.
  intros b head tail. split; [|split; [apply substring_middle|split]].
  - unfold transcription_request. fold b. f_equal.
    subst head tail. unfold multipart_parts, Buffer_concat.
    cbn [take drop fold_right]. rewrite !append_empty_r, !append_assoc. reflexivity.
  - subst head. unfold multipart_parts, Buffer_concat. cbn [take fold_right].
    rewrite !append_assoc, append_empty_r.
    rewrite <- (append_assoc b crlf), <- (append_assoc "--" (b +:+ crlf)).
    apply prefix_append.
  - subst tail. unfold multipart_parts, Buffer_concat. cbn [drop fold_right].
    apply append_empty_r.
Qed.

(** X18.  The transcription handler answers 400 without contacting the
    provider when no file was uploaded; with a file it posts exactly one
    request and answers 200 exactly when the provider's status is a success
    and its body is JSON.  A failing provider answer is passed on with its
    JSON body but with status 500, never with the provider's status; the
    state is never changed. *)
Theorem stt_handler_outcomes env fetch_stt rnd file st :
  let out := stt_handler env fetch_stt rnd file st in
  stt_final out = st
  /\ (file = None ->
      stt_calls out = []
      /\ stt_resp out = {| status := 400; sent := error_json "audio file required" |})
  /\ (forall bytes, file = Some bytes ->
      stt_calls out = [transcription_request env rnd bytes])
  /\ (status (stt_resp out) = 200 <->
      exists bytes r data,
        file = Some bytes
        /\ fetch_stt (transcription_request env rnd bytes) = Resolved r
        /\ ok r = true /\ up_json r = JsonOk data)
  /\ (forall bytes r data,
        file = Some bytes ->
        fetch_stt (transcription_request env rnd bytes) = Resolved r ->
        ok r = false -> up_json r = JsonOk data ->
        stt_resp out = {| status := 500; sent := Json data |})
  /\ (status (stt_resp out) = 200 \/ status (stt_resp out) = 400
      \/ status (stt_resp out) = 500).
Proof.
  intros out. subst out. unfold stt_handler.
  destruct file as [bytes|].
  - destruct (fetch_stt (transcription_request env rnd bytes)) as [e|r] eqn:Hf.
    + cbn. split; [reflexivity|]. split; [discriminate|].
      split; [intros b H; injection H as <-; reflexivity|].
      split; [split; [discriminate|]|split; [|right; right; reflexivity]].
      * intros (b & r & d & H & Hr & _). injection H as <-. congruence.
      * intros b r d H Hr. injection H as <-. congruence.
    + destruct (up_json r) as [data|e] eqn:Hj.
      * destruct (ok r) eqn:Hok; cbn.
        -- split; [reflexivity|]. split; [discriminate|].
           split; [intros b H; injection H as <-; reflexivity|].
           split; [split; [intros _; exists bytes, r, data; auto|reflexivity]|].
           split; [|left; reflexivity].
           intros b r' d H Hr. injection H as <-. congruence.
        -- split; [reflexivity|]. split; [discriminate|].
           split; [intros b H; injection H as <-; reflexivity|].
           split; [split; [discriminate|]|split; [|right; right; reflexivity]].
           ++ intros (b & r' & d & H & Hr & Hok' & _). injection H as <-. congruence.
           ++ intros b r' d H Hr _ Hd. injection H as <-.
              assert (r' = r) by congruence. subst r'.
              assert (d = data) by congruence. subst d. reflexivity.
      * cbn. split; [reflexivity|]. split; [discriminate|].
        split; [intros b H; injection H as <-; reflexivity|].
        split; [split; [discriminate|]|split; [|right; right; reflexivity]].
        -- intros (b & r' & d & H & Hr & _ & Hd). injection H as <-. congruence.
        -- intros b r' d H Hr _ Hd. injection H as <-. congruence.
  - cbn. split; [reflexivity|]. split; [intros _; split; reflexivity|].
    split; [discriminate|].
    split; [split; [discriminate|]|split; [discriminate|right; left; reflexivity]].
    intros (b & _ & _ & H & _). discriminate.
Qed.

Lemma stt_handler_outcomes_witness :
  let transcribe (rq : stt_request) :=
    Resolved {| up_status := 400; up_text := "(error)";
                up_json := JsonOk Fixtures.invalid_key |} in
  let out := stt_handler Fixtures.S.env transcribe "9f3a" (Some "RIFF") Fixtures.S.st0 in
  stt_calls out = [transcription_request Fixtures.S.env "9f3a" "RIFF"]
  /\ stt_resp out = {| status := 500; sent := Json Fixtures.invalid_key |}.
Proof.
  intros transcribe out.
  pose proof (stt_handler_outcomes Fixtures.S.env transcribe "9f3a" (Some "RIFF")
                Fixtures.S.st0) as (_ & _ & Hcalls & _ & Hbad & _).
  split; [exact (Hcalls "RIFF" eq_refl)|].
  exact (Hbad "RIFF" _ Fixtures.invalid_key eq_refl eq_refl eq_refl eq_refl).
Defined.

End SpeechToText.

(** ** The log query on any table *)

Section LogQuery.
Import Js Http Sqlite.








End LogQuery.

(* ===================================================================== *)
(** * Further properties of the in-house server *)
(* ===================================================================== *)

Section InHouseServer.
Import Js Http InHouse.

Lemma put_settings_all_set req st :
  all_set (settings st) ->
  all_set (settings (final (put_settings_handler req st))).
Proof.
  intros (Hm & He & Hv). unfold put_settings_handler. cbn.
  destruct (truthy (opt_get _ "model")) eqn:H1,
           (truthy (opt_get _ "tts_engine")) eqn:H2,
           (truthy (opt_get _ "tts_voice")) eqn:H3; cbn; repeat split; assumption.
Qed.

Lemma chat_keeps_settings create iso sc who msgs now st :
  settings (final (chat create iso sc who msgs now st)) = settings st.
Proof.
  unfold chat, callChat. cbn [fst snd]. destruct (create _ _); reflexivity.
Qed.

Lemma tts_keeps_state env fetch req st :
  final (tts_handler env fetch req st) = st.
Proof.
  unfold tts_handler, ttsBuffer. cbn [fst snd].
  destruct (fetch _ _ _) as [e|r]; [reflexivity|]. destruct (negb (ok r)); reflexivity.
Qed.

(** X20.  In every state the in-house server reaches, no settings field is
    falsy: start-up fills each field with a non-empty string and an update
    only stores truthy values.  Hence the model sent upstream is always the
    stored one; the ['gpt-4o-mini'] fallback of [callChat] never applies. *)
Theorem inhouse_settings_stay_set env toISOString st :
  reachable env toISOString st ->
  all_set (settings st) /\ chat_model_of st = model (settings st).
Proof.
  intros Hreach.
  assert (Hset : all_set (settings st)).
  { induction Hreach as [|st create fetch r now req _ IH].
    - unfold all_set. cbn.
      repeat split; apply negb_true_iff, String.eqb_neq, or_else_nonempty; discriminate.
    - destruct r; cbn [serve].
      + unfold PUT_super_settings. rewrite requireAdmin_unfold.
        destruct (admits env req); [apply put_settings_all_set; exact IH|exact IH].
      + unfold POST_super_chat. rewrite requireAdmin_unfold.
        destruct (admits env req); [|exact IH].
        unfold super_chat_handler. rewrite chat_keeps_settings. exact IH.
      + unfold GET_super_tts. rewrite requireAdmin_unfold.
        destruct (admits env req); [|exact IH]. rewrite tts_keeps_state. exact IH.
      + unfold POST_chat_user_send, user_send_handler.
        rewrite chat_keeps_settings. exact IH.
      + unfold GET_tts. rewrite tts_keeps_state. exact IH. }
  split; [exact Hset|]. unfold chat_model_of, js_or.
  destruct Hset as (-> & _). reflexivity.
Qed.

Lemma inhouse_settings_stay_set_witness :
  let st := final (serve Fixtures.H.env Fixtures.H.create_hello Fixtures.H.fetch_audio
                     Fixtures.iso PutSettings 0
                     (Fixtures.H.admin (JObj [("model", JStr ""); ("tts_voice", JStr "nova")]))
                     Fixtures.H.st0) in
  reachable Fixtures.H.env Fixtures.iso st
  /\ all_set (settings st)
  /\ chat_model_of st = JStr "gpt-4o-mini".
Proof.
  intros st.
  assert (H : reachable Fixtures.H.env Fixtures.iso st).
  { apply reachable_serve. apply reachable_start. }
  split; [exact H|].
  exact (inhouse_settings_stay_set Fixtures.H.env Fixtures.iso st H).
Defined.

(** X21.  When [ADMIN_BYPASS_TOKEN] is unset or empty the in-house server
    answers every request to a superadmin route with 401
    [admin_token_missing], whatever the request carries, without touching
    the state or the provider. *)
Theorem inhouse_closed_without_token env create fetch toISOString now req st :
  ADMIN_BYPASS_TOKEN env = "" ->
  let refusal := respond st 401 (error_json "admin_token_missing") in
  GET_super_settings env req st = refusal
  /\ PUT_super_settings env req st = refusal
  /\ POST_super_chat env create toISOString now req st = refusal
  /\ GET_super_tts env fetch req st = refusal
  /\ GET_super_logs env req st = refusal.
Proof.
  intros Htoken refusal. subst refusal.
  unfold GET_super_settings, PUT_super_settings, POST_super_chat, GET_super_tts,
    GET_super_logs.
  rewrite !requireAdmin_unfold. unfold admits. rewrite Htoken. cbn.
  repeat split; reflexivity.
Qed.

Lemma inhouse_closed_without_token_witness :
  let env := {| env_OPENAI_API_KEY := Some "sk-test"; env_ADMIN_BYPASS_TOKEN := None;
                env_CHAT_MODEL := None; env_TTS_ENGINE := None; env_TTS_VOICE := None |} in
  let req := {| x_admin := Some ""; body := Fixtures.H.chat_body; query_text := None;
                query_voice := None; query_q := None; query_limit := None |} in
  ADMIN_BYPASS_TOKEN env = ""
  /\ POST_super_chat env Fixtures.H.create_hello Fixtures.iso 0 req Fixtures.H.st0
     = respond Fixtures.H.st0 401 (error_json "admin_token_missing").
Proof.
  intros env req.
  assert (H : ADMIN_BYPASS_TOKEN env = "") by reflexivity.
  split; [exact H|].
  exact (proj1 (proj2 (proj2 (inhouse_closed_without_token env Fixtures.H.create_hello
           Fixtures.H.fetch_audio Fixtures.iso 0 req Fixtures.H.st0 H)))).
Defined.

Lemma filter_logs_fails q l r :
  r ∈ l -> lower_text (reply r) = None -> filter_logs q l = None.
Proof.
  intros Hin Hr. induction l as [|x l IH]; [inversion Hin|].
  cbn [filter_logs]. apply elem_of_cons in Hin as [<-|Hin].
  - unfold entry_matches. rewrite Hr. reflexivity.
  - rewrite (IH Hin). destruct (entry_matches q x); reflexivity.
Qed.

(** X22.  If the log holds an entry whose reply is truthy but not a string
    (the provider returned the content as a list of parts, say), every logs
    query with a search text fails with 500, wherever that entry sits, while
    a query without search text still answers 200. *)
Theorem inhouse_search_breaks_on_non_string_reply req st r :
  r ∈ logs st ->
  lower_text (reply r) = None ->
  (toLowerCase (or_else (query_q req) "") <> "" ->
   status (resp (logs_handler req st)) = 500)
  /\ (toLowerCase (or_else (query_q req) "") = "" ->
      resp (logs_handler req st)
      = {| status := 200; sent := Entries (take 200 (logs st)) |}).
Proof.
  intros Hin Hr. unfold logs_handler. split; intros Hq.
  - destruct (String.eqb_spec (toLowerCase (or_else (query_q req) "")) "");
      [contradiction|]. cbn [negb].
    rewrite (filter_logs_fails _ _ r Hin Hr). reflexivity.
  - rewrite Hq. reflexivity.
Qed.

Lemma inhouse_search_breaks_on_non_string_reply_witness :
  let st := final (POST_chat_user_send Fixtures.H.create_parts Fixtures.iso 0
                     (Fixtures.H.anonymous Fixtures.H.chat_body) Fixtures.H.st0) in
  let r := {| created_at := "2024-05-01 10:20:30"; scope := "user"; actor := JStr "user";
              messages := stringify_array [Fixtures.user_hi];
              reply := JArr [JObj [("type", JStr "text"); ("text", JStr "hello")]] |} in
  r ∈ logs st
  /\ lower_text (reply r) = None
  /\ status (resp (logs_handler (Fixtures.H.admin_query (Some "hello") None) st)) = 500.
Proof.
  intros st r.
  assert (H1 : r ∈ logs st) by (vm_compute; constructor).
  assert (H2 : lower_text (reply r) = None) by reflexivity.
  split; [exact H1|]. split; [exact H2|].
  refine (proj1 (inhouse_search_breaks_on_non_string_reply
                   (Fixtures.H.admin_query (Some "hello") None) st r H1 H2) _).
  discriminate.
Defined.


Lemma length_append s t :
  String.length (s +:+ t) = (String.length s + String.length t)%nat.
Proof.
  induction s as [|c s IH]; [reflexivity|].
  rewrite append_cons. cbn [String.length]. rewrite IH. reflexivity.
Qed.

Lemma replace_first_after d a b s :
  forallb (fun c => negb (Ascii.eqb c a)) (list_ascii_of_string d) = true ->
  replace_first a b (d +:+ String a s) = d +:+ String b s.
Proof.
  induction d as [|c d IH]; intros Hd.
  - change ("" +:+ String a s) with (String a s). cbn [replace_first].
    rewrite Ascii.eqb_refl. reflexivity.
  - cbn [list_ascii_of_string forallb] in Hd.
    apply andb_true_iff in Hd as [Hc Hd]. apply negb_true_iff in Hc.
    rewrite !append_cons. cbn [replace_first]. rewrite Hc, (IH Hd). reflexivity.
Qed.

Lemma slice0_append p s n :
  slice0 (String.length p + n) (p +:+ s) = p +:+ slice0 n s.
Proof.
  induction p as [|c p IH]; [reflexivity|].
  rewrite !append_cons. cbn [String.length Nat.add slice0]. rewrite IH. reflexivity.
Qed.

(** X23.  For a clock string of the shape [toISOString] produces, a date of
    ten characters, the letter T, a time of eight characters and a rest,
    [nowISO] is the date, a space and the time: the T is replaced and the
    fraction and zone are cut off. *)
Theorem nowISO_is_date_space_time toISOString now d t rest :
  forallb (fun c => negb (Ascii.eqb c "T")) (list_ascii_of_string d) = true ->
  String.length d = 10%nat ->
  String.length t = 8%nat ->
  toISOString now = d +:+ "T" +:+ t +:+ rest ->
  nowISO toISOString now = d +:+ " " +:+ t.
Proof.
  intros Hd Hld Hlt Hiso. unfold nowISO. rewrite Hiso.
  change ("T" +:+ t +:+ rest) with (String "T" (t +:+ rest)).
  rewrite (replace_first_after d "T" " " _ Hd).
  change (String " " (t +:+ rest)) with (" " +:+ t +:+ rest).
  rewrite <- (append_assoc " " t rest), <- (append_assoc d (" " +:+ t) rest).
  replace 19%nat with (String.length (d +:+ " " +:+ t) + 0)%nat.
  - rewrite slice0_append. destruct rest; apply append_empty_r.
  - rewrite !length_append, Hld, Hlt. reflexivity.
Qed.

Lemma nowISO_is_date_space_time_witness :
  forallb (fun c => negb (Ascii.eqb c "T")) (list_ascii_of_string "2024-05-01") = true
  /\ String.length "2024-05-01" = 10%nat
  /\ String.length "10:20:30" = 8%nat
  /\ Fixtures.iso 0 = "2024-05-01" +:+ "T" +:+ "10:20:30" +:+ ".000Z"
  /\ nowISO Fixtures.iso 0 = "2024-05-01 10:20:30".
Proof.
  assert (H1 : forallb (fun c => negb (Ascii.eqb c "T"))
                 (list_ascii_of_string "2024-05-01") = true) by reflexivity.
  assert (H2 : String.length "2024-05-01" = 10%nat) by reflexivity.
  assert (H3 : String.length "10:20:30" = 8%nat) by reflexivity.
  assert (H4 : Fixtures.iso 0 = "2024-05-01" +:+ "T" +:+ "10:20:30" +:+ ".000Z")
    by reflexivity.
  repeat (split; [assumption|]).
  exact (nowISO_is_date_space_time Fixtures.iso 0 "2024-05-01" "10:20:30" ".000Z"
           H1 H2 H3 H4).
Defined.

(** What one chat of the in-house server does to the log. *)
Lemma inhouse_chat_step create iso sc who msgs now st :
  let out := chat create iso sc who msgs now st in
  (status (resp out) = 500 /\ logs (final out) = logs st)
  \/ (status (resp out) = 200
      /\ exists entry,
           logs (final out) = entry :: logs st
           /\ scope entry = sc /\ actor entry = who
           /\ created_at entry = nowISO iso now
           /\ (reply entry = JStr "" \/ truthy (reply entry) = true)).
Proof.
  intros out. subst out. unfold chat, callChat. cbn [fst snd].
  destruct (create _ _) as [e|completion]; cbn; [left; split; reflexivity|].
  right. split; [reflexivity|]. eexists. split; [reflexivity|]. cbn.
  repeat split. unfold js_or.
  destruct (truthy (first_choice_content completion)) eqn:H; [right; exact H|left; reflexivity].
Qed.

(** X24.  Every entry of a reachable in-house log was written by one of
    the two chat routes: its scope is ["super"], or ["user"] with the actor
    ["user"]; its reply is the empty string or a truthy value, never
    [null] or [undefined]; and its timestamp is a [nowISO] string. *)
Theorem inhouse_entries_are_well_formed env toISOString st :
  reachable env toISOString st ->
  Forall (fun e =>
            (scope e = "super" \/ (scope e = "user" /\ actor e = JStr "user"))
            /\ (reply e = JStr "" \/ truthy (reply e) = true)
            /\ exists now, created_at e = nowISO toISOString now)
    (logs st).
Proof.
  induction 1 as [|st create fetch r now req _ IH]; [constructor|].
  destruct r; cbn [serve].
  - unfold PUT_super_settings. rewrite requireAdmin_unfold.
    destruct (admits env req); exact IH.
  - unfold POST_super_chat. rewrite requireAdmin_unfold.
    destruct (admits env req); [|exact IH]. unfold super_chat_handler.
    match goal with |- context [chat ?c ?i ?sc ?who ?ms ?n ?s0] =>
      destruct (inhouse_chat_step c i sc who ms n s0)
        as [[_ ->]|[_ (entry & -> & Hsc & _ & Hat & Hr)]] end; [exact IH|].
    constructor; [|exact IH]. split; [left; exact Hsc|]. split; [exact Hr|].
    exists now. exact Hat.
  - unfold GET_super_tts. rewrite requireAdmin_unfold.
    destruct (admits env req); [|exact IH]. rewrite tts_keeps_state. exact IH.
  - unfold POST_chat_user_send, user_send_handler.
    match goal with |- context [chat ?c ?i ?sc ?who ?ms ?n ?s0] =>
      destruct (inhouse_chat_step c i sc who ms n s0)
        as [[_ ->]|[_ (entry & -> & Hsc & Hwho & Hat & Hr)]] end; [exact IH|].
    constructor; [|exact IH]. split; [right; split; assumption|].
    split; [exact Hr|]. exists now. exact Hat.
  - unfold GET_tts. rewrite tts_keeps_state. exact IH.
Qed.

Lemma inhouse_entries_are_well_formed_witness :
  let st := final (serve Fixtures.H.env Fixtures.H.create_empty Fixtures.H.fetch_audio
                     Fixtures.iso UserSend 0 (Fixtures.H.anonymous Fixtures.H.chat_body)
                     Fixtures.H.st0) in
  reachable Fixtures.H.env Fixtures.iso st
  /\ length (logs st) = 1%nat
  /\ Forall (fun e =>
               (scope e = "super" \/ (scope e = "user" /\ actor e = JStr "user"))
               /\ (reply e = JStr "" \/ truthy (reply e) = true)
               /\ exists now, created_at e = nowISO Fixtures.iso now)
       (logs st).
Proof.
  intros st.
  assert (H : reachable Fixtures.H.env Fixtures.iso st).
  { apply reachable_serve. apply reachable_start. }
  split; [exact H|]. split; [reflexivity|].
  exact (inhouse_entries_are_well_formed Fixtures.H.env Fixtures.iso st H).
Defined.

End InHouseServer.
